(** * Usage-plan governance: drift detection, enforcement and recovery

    A shallow embedding of the three cooperating Lambda handlers

      - [src/config_compliance/handler.py]        (module [Compliance])
      - [src/configuration_enforcement/handler.py] (module [Enforcement])
      - [src/usage_plan_recovery/handler.py]       (module [Recovery])

    over an explicit model of the two stores they talk to (the DynamoDB
    governance table and the API Gateway usage plans) and of the SNS
    topic.  Handlers are functions in a state-and-exception monad over
    [world]; every boto3 call is logged and may fail. *)

From Stdlib Require Import ZArith Lia Ascii String DecimalString.
From stdpp Require Import gmap strings list fin_maps.

Local Open Scope Z_scope.

(* ===================================================================== *)
(** ** Python values                                                      *)
(* ===================================================================== *)

(** A finite number with the exact value [coef * 10 ^ expo].  Python's
    [int], DynamoDB's [Decimal] and the finite [float]s returned by API
    Gateway all have such a value; the class of the number is not
    recorded. *)
Record number := Num { coef : Z; expo : Z }.

Definition zero : number := Num 0 0.
Definition of_int (z : Z) : number := Num z 0.

(** [int(n)]: truncation towards zero. *)
Definition num_int (n : number) : Z :=
  if 0 <=? expo n then coef n * 10 ^ expo n
  else Z.quot (coef n) (10 ^ (- expo n)).

(** [n == z] for an integer [z], at the exact values. *)
Definition num_eq_int (n : number) (z : Z) : bool :=
  if 0 <=? expo n then coef n * 10 ^ expo n =? z
  else coef n =? z * 10 ^ (- expo n).

(** The attribute values held by items of the governance table, as boto3
    hands them over: NULL, BOOL, N (a [Decimal]), S, and L holding
    strings (the only lists the handlers and the populator store). *)
Inductive pyval :=
| PNone
| PBool (b : bool)
| PNum (n : number)
| PStr (s : string)
| PStrList (l : list string).

#[global] Instance number_eq_dec : EqDecision number.
Proof. solve_decision. Defined.
#[global] Instance pyval_eq_dec : EqDecision pyval.
Proof. solve_decision. Defined.

(** Results of code that may raise: [Raise e] carries the exception's
    text. *)
Inductive outcome (A : Type) :=
| Ok (a : A)
| Raise (e : string).
Arguments Ok {A} a.
Arguments Raise {A} e.

Definition is_ok {A} (o : outcome A) : bool :=
  match o with Ok _ => true | Raise _ => false end.

(** *** Strings *)

Definition chars (s : string) : list ascii := list_ascii_of_string s.
Definition text (l : list ascii) : string := string_of_list_ascii l.

(** [len(s)] *)
Definition len (s : string) : Z := Z.of_nat (String.length s).

(** [s[:k]], also for negative [k]. *)
Definition slice_to (k : Z) (s : string) : string :=
  let stop := if k <? 0 then Z.max 0 (len s + k) else k in
  substring 0 (Z.to_nat stop) s.

(** [s.split(sep)] for a one-character separator. *)
Fixpoint split_chars (sep : ascii) (cur : list ascii) (l : list ascii)
  : list string :=
  match l with
  | [] => [text (rev cur)]
  | c :: r =>
      if Ascii.eqb c sep then text (rev cur) :: split_chars sep [] r
      else split_chars sep (c :: cur) r
  end.

Definition split (sep : ascii) (s : string) : list string :=
  split_chars sep [] (chars s).

(** [parts[i]] for [i >= 0] and [parts[-i]]: [None] is IndexError. *)
Definition index {A} (l : list A) (i : nat) : option A := l !! i.
Definition index_back {A} (l : list A) (i : nat) : option A :=
  match i with
  | O => l !! 0%nat
  | S j => rev l !! j
  end.

#[global] Arguments index : simpl never.
#[global] Arguments index_back : simpl never.

(** [sub in s] on strings. *)
Fixpoint is_prefix (p s : list ascii) : bool :=
  match p, s with
  | [], _ => true
  | _ :: _, [] => false
  | a :: p', b :: s' => Ascii.eqb a b && is_prefix p' s'
  end.

Fixpoint occurs_in (p s : list ascii) : bool :=
  is_prefix p s ||
  match s with
  | [] => false
  | _ :: s' => occurs_in p s'
  end.

(** [str(z)] for an integer. *)
Definition str_of_int (z : Z) : string := NilZero.string_of_int (Z.to_int z).
Definition str_of_nat (n : nat) : string := str_of_int (Z.of_nat n).

(** *** [int(...)] *)

Definition is_space (c : ascii) : bool :=
  let n := nat_of_ascii c in
  ((9 <=? n) && (n <=? 13) || (28 <=? n) && (n <=? 32))%nat.

Definition digit_of (c : ascii) : option Z :=
  let n := nat_of_ascii c in
  if ((48 <=? n) && (n <=? 57))%nat then Some (Z.of_nat n - 48) else None.

Fixpoint lstrip (l : list ascii) : list ascii :=
  match l with
  | c :: r => if is_space c then lstrip r else l
  | [] => []
  end.

Definition strip (l : list ascii) : list ascii := rev (lstrip (rev (lstrip l))).

(** Digits with single underscores between them; [after_digit] tells
    whether the character before was a digit. *)
Fixpoint digits (acc : Z) (after_digit : bool) (l : list ascii) : option Z :=
  match l with
  | [] => if after_digit then Some acc else None
  | c :: r =>
      match digit_of c with
      | Some d => digits (10 * acc + d) true r
      | None =>
          if Ascii.eqb c "_" && after_digit then digits acc false r else None
      end
  end.

(** [int(s)] for a string of the base-10 literal grammar: blanks around,
    an optional sign, digits. *)
Definition int_of_str (s : string) : option Z :=
  match strip (chars s) with
  | c :: r =>
      if Ascii.eqb c "-" then Z.opp <$> digits 0 false r
      else if Ascii.eqb c "+" then digits 0 false r
      else digits 0 false (c :: r)
  | [] => None
  end.

(** [int(v)]: [Raise] is TypeError or ValueError. *)
Definition py_int (v : pyval) : outcome Z :=
  match v with
  | PNone => Raise "TypeError: int() argument must be a string or a number"
  | PBool b => Ok (if b then 1 else 0)
  | PNum n => Ok (num_int n)
  | PStr s =>
      match int_of_str s with
      | Some z => Ok z
      | None => Raise "ValueError: invalid literal for int()"
      end
  | PStrList _ => Raise "TypeError: int() argument must be a string or a number"
  end.

(** [int(d.get(key, 0))] *)
Definition int_or_zero (v : option pyval) : outcome Z :=
  match v with
  | Some x => py_int x
  | None => Ok 0
  end.

(** [bool(v)] *)
Definition truthy (v : pyval) : bool :=
  match v with
  | PNone => false
  | PBool b => b
  | PNum n => negb (coef n =? 0)
  | PStr s => negb (String.eqb s "")
  | PStrList l => match l with [] => false | _ => true end
  end.

(** [set(v)]: the strings of a list, the characters of a string;
    anything else is not iterable. *)
Definition py_set (v : pyval) : outcome (gset string) :=
  match v with
  | PStrList l => Ok (list_to_set l)
  | PStr s => Ok (list_to_set ((λ c, String c "") <$> chars s))
  | _ => Raise "TypeError: object is not iterable"
  end.

(** [bool(s)] for a string that may be [None]. *)
Definition nonempty_id (s : option string) : bool :=
  match s with
  | Some x => negb (String.eqb x "")
  | None => false
  end.

#[global] Arguments nonempty_id !s /.

(** [x in v] for a string [x]. *)
Definition py_contains (x : string) (v : pyval) : outcome bool :=
  match v with
  | PStrList l => Ok (bool_decide (x ∈ l))
  | PStr s => Ok (occurs_in (chars x) (chars s))
  | _ => Raise "TypeError: argument is not iterable"
  end.

#[global] Instance outcome_ret : MRet outcome := λ A a, Ok a.
#[global] Instance outcome_bind : MBind outcome := λ A B f o,
  match o with
  | Ok a => f a
  | Raise e => Raise e
  end.

(* ===================================================================== *)
(** ** The stores and the services                                        *)
(* ===================================================================== *)

(** An item of the governance table.  [plan_id] is the table's hash key,
    a string attribute every item has; [attrs] holds the other
    attributes. *)
Record item := Item { plan_id : string; attrs : gmap string pyval }.

(** [item.get(key)] for a non-key attribute. *)
Definition get (it : item) (key : string) : option pyval := attrs it !! key.

(** A usage plan as [get_usage_plan] and [get_usage_plans] return it. *)
Record throttle_settings :=
  Throttle { rateLimit : option number; burstLimit : option number }.
Record quota_settings :=
  Quota { limit : option number; period : option pyval }.
Record api_stage := ApiStage { apiId : option string; stage : option string }.

(** A description is plain text, or the text the recovery handler
    builds around the old record's description. *)
Inductive description :=
| Plain (s : string)
| RecreatedFrom (original : pyval).

Record usage_plan := UsagePlan {
  up_id : string;
  up_name : option string;
  up_description : option description;
  up_apiStages : option (list api_stage);
  up_throttle : option throttle_settings;
  up_quota : option quota_settings }.

(** [d.get('throttle', {})] and [d.get('quota', {})] *)
Definition throttle_of (p : usage_plan) : throttle_settings :=
  default (Throttle None None) (up_throttle p).
Definition quota_of (p : usage_plan) : quota_settings :=
  default (Quota None None) (up_quota p).
Definition stages_of (p : usage_plan) : list api_stage :=
  default [] (up_apiStages p).

(** [int(d.get(key, 0))] on the gateway's side, where values are numbers. *)
Definition api_int (n : option number) : Z := num_int (default zero n).

Record patch_op := Patch { op : string; path : string; value : string }.

Record create_params := CreateParams {
  cp_name : pyval;
  cp_description : description;
  cp_throttle : option (number * Z);
  cp_quota : option (Z * pyval) }.

(** Compliance evaluations handed to AWS Config. *)
Inductive compliance := COMPLIANT | NON_COMPLIANT | NOT_APPLICABLE.

Record evaluation := Evaluation {
  ComplianceResourceType : string;
  ComplianceResourceId : string;
  ComplianceType : compliance;
  Annotation : string;
  OrderingTimestamp : string }.

(** The three limits compared by the handlers. *)
Inductive attribute := RateLimit | BurstLimit | QuotaLimit.

(** One entry of [drift_detected]: attribute, current and expected value. *)
Record drift := Drift {
  drift_attr : attribute; drift_current : number; drift_expected : Z }.

(** Messages published to the notifications topic. *)
Inductive notification :=
| DriftCorrected (pid : string) (plan_name : pyval) (drift_detected : list drift)
| CorrectionFailed (pid : string) (plan_name : pyval) (error : string)
| UnmanagedDetected (unmanaged : list usage_plan)
| ManagedPlanDeleted (pid : string) (plan_name : pyval) (tier : pyval)
| UsagePlanDeleted (pid : string) (plan_name tier : pyval)
    (new_plan_id : option string) (associated_stages : nat).

(** Every call to a boto3 client or resource. *)
Inductive request :=
| GetItem (key : option string)
| ScanTable
| PutItem (it : item)
| UpdateItem (key : string) (sets : list (string * pyval))
| GetUsagePlans
| GetUsagePlan (pid : string)
| CreateUsagePlan (params : create_params)
| UpdateUsagePlan (pid : string) (ops : list patch_op)
| DeleteUsagePlan (pid : string)
| GetStage (api : string) (stage_name : string)
| Publish (n : notification)
| PutEvaluations (evs : list evaluation).

(** The state the handlers run against.  [outage n] tells whether the
    [n]-th call of the run fails at the service; [id_supply] lists the
    identities API Gateway hands out next. *)
Record world := World {
  table : gmap string (gmap string pyval);
  plans : list usage_plan;
  deployed : list (string * string);
  id_supply : list string;
  outbox : list notification;
  log : list request;
  outage : nat → bool;
  region : option string;
  clock : string }.

Definition with_table (t : gmap string (gmap string pyval)) (w : world) :=
  World t (plans w) (deployed w) (id_supply w) (outbox w) (log w)
        (outage w) (region w) (clock w).
Definition with_plans (ps : list usage_plan) (w : world) :=
  World (table w) ps (deployed w) (id_supply w) (outbox w) (log w)
        (outage w) (region w) (clock w).
Definition with_id_supply (ids : list string) (w : world) :=
  World (table w) (plans w) (deployed w) ids (outbox w) (log w)
        (outage w) (region w) (clock w).
Definition with_outbox (o : list notification) (w : world) :=
  World (table w) (plans w) (deployed w) (id_supply w) o (log w)
        (outage w) (region w) (clock w).
Definition with_log (l : list request) (w : world) :=
  World (table w) (plans w) (deployed w) (id_supply w) (outbox w) l
        (outage w) (region w) (clock w).

(** *** The monad of handler code: state and exceptions *)

Definition io (A : Type) : Type := world → outcome A * world.

#[global] Instance io_ret : MRet io := λ A a w, (Ok a, w).
#[global] Instance io_bind : MBind io := λ A B f m w,
  match m w with
  | (Ok a, w') => f a w'
  | (Raise e, w') => (Raise e, w')
  end.

Definition raise {A} (e : string) : io A := λ w, (Raise e, w).

(** [try: body except Exception as e: handler(e)] *)
Definition try_except {A} (body : io A) (handler : string → io A) : io A :=
  λ w, match body w with
       | (Ok a, w') => (Ok a, w')
       | (Raise e, w') => handler e w'
       end.

(** Lifting code that only raises. *)
Definition lift {A} (o : outcome A) : io A := λ w, (o, w).

Definition read {A} (f : world → A) : io A := λ w, (Ok (f w), w).
Definition modify (f : world → world) : io unit := λ w, (Ok (), f w).

(** A call reaches the service: it is logged, and fails when the service
    is out at this point of the run. *)
Definition call (r : request) : io unit := λ w,
  let w' := with_log (log w ++ [r]) w in
  if outage w (length (log w)) then (Raise "ServiceUnavailable", w')
  else (Ok (), w').

(** *** DynamoDB *)

Definition get_item (key : option string) : io (option item) :=
  call (GetItem key);;
  match key with
  | Some k => read (λ w, Item k <$> table w !! k)
  | None => raise "ValidationException: key attribute of the wrong type"
  end.

Definition scan : io (list item) :=
  call ScanTable;;
  read (λ w, (λ kv, Item kv.1 kv.2) <$> map_to_list (table w)).

Definition put_item (it : item) : io unit :=
  call (PutItem it);;
  modify (λ w, with_table (<[plan_id it := attrs it]> (table w)) w).

(** [SET a = :a, ...]: the item is created when the key is new. *)
Definition apply_sets (sets : list (string * pyval)) (a : gmap string pyval)
  : gmap string pyval :=
  foldl (λ acc kv, <[kv.1 := kv.2]> acc) a sets.

Definition update_item (key : string) (sets : list (string * pyval)) : io unit :=
  call (UpdateItem key sets);;
  modify (λ w, with_table
    (<[key := apply_sets sets (default ∅ (table w !! key))]> (table w)) w).

(** *** API Gateway *)

Definition find_plan (pid : string) (ps : list usage_plan) : option usage_plan :=
  List.find (λ p, String.eqb (up_id p) pid) ps.

Definition get_usage_plans : io (list usage_plan) :=
  call GetUsagePlans;; read plans.

Definition get_usage_plan (pid : string) : io usage_plan :=
  call (GetUsagePlan pid);;
  found ← read (λ w, find_plan pid (plans w));
  match found with
  | Some p => mret p
  | None => raise "NotFoundException: Invalid Usage Plan ID specified"
  end.

Definition create_usage_plan (params : create_params) : io string :=
  call (CreateUsagePlan params);;
  ids ← read id_supply;
  match cp_name params, ids with
  | PStr n, new_id :: rest =>
      quota_ok ← match cp_quota params with
                 | Some (_, PStr _) | None => mret ()
                 | Some _ => raise "ParamValidationError: period"
                 end;
      let p := UsagePlan new_id (Some n) (Some (cp_description params)) None
                 ((λ t, Throttle (Some t.1) (Some (of_int t.2))) <$> cp_throttle params)
                 ((λ q, Quota (Some (of_int q.1)) (Some q.2)) <$> cp_quota params) in
      modify (λ w, with_id_supply rest (with_plans (plans w ++ [p]) w));;
      mret new_id
  | PStr _, [] => raise "ServiceUnavailable"
  | _, _ => raise "ParamValidationError: name"
  end.

Definition set_rate (n : number) (p : usage_plan) : usage_plan :=
  UsagePlan (up_id p) (up_name p) (up_description p) (up_apiStages p)
    (Some (Throttle (Some n) (burstLimit (throttle_of p)))) (up_quota p).
Definition set_burst (n : number) (p : usage_plan) : usage_plan :=
  UsagePlan (up_id p) (up_name p) (up_description p) (up_apiStages p)
    (Some (Throttle (rateLimit (throttle_of p)) (Some n))) (up_quota p).
Definition set_limit (n : number) (p : usage_plan) : usage_plan :=
  UsagePlan (up_id p) (up_name p) (up_description p) (up_apiStages p)
    (up_throttle p) (Some (Quota (Some n) (period (quota_of p)))).
Definition add_stage (s : api_stage) (p : usage_plan) : usage_plan :=
  UsagePlan (up_id p) (up_name p) (up_description p)
    (Some (stages_of p ++ [s])) (up_throttle p) (up_quota p).

Definition apply_patch (o : patch_op) (p : usage_plan) : outcome usage_plan :=
  if String.eqb (op o) "replace" then
    match int_of_str (value o) with
    | Some z =>
        if String.eqb (path o) "/throttle/rateLimit" then Ok (set_rate (of_int z) p)
        else if String.eqb (path o) "/throttle/burstLimit" then Ok (set_burst (of_int z) p)
        else if String.eqb (path o) "/quota/limit" then Ok (set_limit (of_int z) p)
        else Raise "BadRequestException: invalid path"
    | None => Raise "BadRequestException: invalid value"
    end
  else if String.eqb (op o) "add" && String.eqb (path o) "/apiStages" then
    match split ":" (value o) with
    | [a; s] => Ok (add_stage (ApiStage (Some a) (Some s)) p)
    | _ => Raise "BadRequestException: invalid stage identifier"
    end
  else Raise "BadRequestException: invalid patch operation".

Definition apply_patches (ops : list patch_op) (p : usage_plan) : outcome usage_plan :=
  foldl (λ acc o, acc ≫= apply_patch o) (Ok p) ops.

Fixpoint replace_plan (p : usage_plan) (ps : list usage_plan) : list usage_plan :=
  match ps with
  | [] => []
  | q :: r => if String.eqb (up_id q) (up_id p) then p :: r else q :: replace_plan p r
  end.

(** One request carries all patch operations; it is applied as a whole
    or not at all. *)
Definition update_usage_plan (pid : string) (ops : list patch_op) : io unit :=
  call (UpdateUsagePlan pid ops);;
  found ← read (λ w, find_plan pid (plans w));
  match found with
  | Some p =>
      p' ← lift (apply_patches ops p);
      modify (λ w, with_plans (replace_plan p' (plans w)) w)
  | None => raise "NotFoundException: Invalid Usage Plan ID specified"
  end.

Definition delete_usage_plan (pid : string) : io unit :=
  call (DeleteUsagePlan pid);;
  found ← read (λ w, find_plan pid (plans w));
  match found with
  | Some _ =>
      modify (λ w, with_plans
        (List.filter (λ p, negb (String.eqb (up_id p) pid)) (plans w)) w)
  | None => raise "NotFoundException: Invalid Usage Plan ID specified"
  end.

Definition get_stage (api stage_name : string) : io unit :=
  call (GetStage api stage_name);;
  known ← read (λ w, bool_decide ((api, stage_name) ∈ deployed w));
  if known : bool then (mret () : io unit)
  else raise "NotFoundException: Invalid stage identifier".

(** *** SNS and AWS Config *)

Definition publish (n : notification) : io unit :=
  call (Publish n);;
  modify (λ w, with_outbox (outbox w ++ [n]) w).

Definition put_evaluations (evs : list evaluation) : io unit :=
  call (PutEvaluations evs).

(* ===================================================================== *)
(** ** Drift detection: [config_compliance/handler.py]                    *)
(* ===================================================================== *)

Module Compliance.

Record configuration_item := ConfigurationItem {
  resourceType : string;
  resourceId : string;
  configurationItemStatus : string;
  configurationItemCaptureTime : string }.

Record response := Response { statusCode : Z; body : string }.

(** The violation texts are only counted by the caller; an entry keeps
    the values its text is built from. *)
Inductive violation :=
| RateLimitViolation (db : option pyval) (api : option number)
| BurstLimitViolation (db : option pyval) (api : option number)
| QuotaLimitViolation (db : option pyval) (api : option number)
| StagesNotInDB (missing_count : nat)
| StagesNotInAPI (missing_count : nat)
| PlanLookupError (api_plan_id : string) (e : string).

Definition max_length : Z := 256.

Definition truncate_annotation (annotation : string) (max_length : Z) : string :=
  if len annotation <=? max_length then annotation
  else slice_to (max_length - 3) annotation +:+ "...".

Definition create_evaluation_result (resource_type resource_id : string)
    (compliance_type : compliance) (annotation : string)
    (configuration_item : configuration_item) : evaluation :=
  Evaluation resource_type resource_id compliance_type
    (truncate_annotation annotation max_length)
    (configurationItemCaptureTime configuration_item).

(** The comparison of the three limits, as the handler writes it in
    three places: conjuncts are evaluated left to right and a failing
    [int()] raises. *)
Definition same_limits (db_plan : item) (api_plan : usage_plan) : outcome bool :=
  let api_throttle := throttle_of api_plan in
  let api_quota := quota_of api_plan in
  rate ← int_or_zero (get db_plan "rate_limit");
  if negb (rate =? api_int (rateLimit api_throttle)) then Ok false else
  burst ← int_or_zero (get db_plan "burst_limit");
  if negb (burst =? api_int (burstLimit api_throttle)) then Ok false else
  quota ← int_or_zero (get db_plan "quota_limit");
  Ok (quota =? api_int (limit api_quota)).

Definition plans_match_by_config (db_plan : item) (api_plan : usage_plan) : bool :=
  match same_limits db_plan api_plan with
  | Ok b => b
  | Raise _ => false
  end.

Definition stage_arn_of (region : option string) (s : api_stage) : string :=
  "arn:aws:apigateway:" +:+ default "us-east-1" region +:+ "::/restapis/"
    +:+ default "None" (apiId s) +:+ "/stages/" +:+ default "None" (stage s).

(** [set(db_stages) if db_stages else set()] with
    [db_stages = db_plan.get('stages', [])] *)
Definition db_stages_set (db_plan : item) : outcome (gset string) :=
  match get db_plan "stages" with
  | Some v => if truthy v then py_set v else Ok ∅
  | None => Ok ∅
  end.

Definition api_stages_set (region : option string) (api_plan : usage_plan)
  : gset string :=
  list_to_set (stage_arn_of region <$> stages_of api_plan).

Definition validate_plan_configuration (region : option string)
    (db_plan : item) (api_plan : usage_plan) : outcome (list violation) :=
  let violations := [] in
  let api_throttle := throttle_of api_plan in
  rate ← int_or_zero (get db_plan "rate_limit");
  let violations :=
    if negb (rate =? api_int (rateLimit api_throttle))
    then violations ++ [RateLimitViolation (get db_plan "rate_limit") (rateLimit api_throttle)]
    else violations in
  burst ← int_or_zero (get db_plan "burst_limit");
  let violations :=
    if negb (burst =? api_int (burstLimit api_throttle))
    then violations ++ [BurstLimitViolation (get db_plan "burst_limit") (burstLimit api_throttle)]
    else violations in
  let api_quota := quota_of api_plan in
  quota ← int_or_zero (get db_plan "quota_limit");
  let violations :=
    if negb (quota =? api_int (limit api_quota))
    then violations ++ [QuotaLimitViolation (get db_plan "quota_limit") (limit api_quota)]
    else violations in
  let api_set := api_stages_set region api_plan in
  db_set ← db_stages_set db_plan;
  let violations :=
    if negb (bool_decide (api_set ⊆ db_set))
    then violations ++ [StagesNotInDB (size (api_set ∖ db_set))]
    else violations in
  let violations :=
    if negb (bool_decide (db_set ⊆ api_set))
    then violations ++ [StagesNotInAPI (size (db_set ∖ api_set))]
    else violations in
  Ok violations.

(** The dict [{plan.get('name'): plan.get('id') for plan in items}]: a
    repeated name keeps its first position and takes the last id. *)
Fixpoint dict_set (k : option string) (v : string)
    (d : list (option string * string)) : list (option string * string) :=
  match d with
  | [] => [(k, v)]
  | (k', v') :: r =>
      if bool_decide (k' = k) then (k', v) :: r else (k', v') :: dict_set k v r
  end.

Definition name_to_id (items : list usage_plan) : list (option string * string) :=
  foldl (λ d plan, dict_set (up_name plan) (up_id plan) d) [] items.

(** The inner loop of [evaluate_deleted_usage_plans]: a lookup that
    raises moves on to the next plan. *)
Fixpoint match_by_config_scan (db_plan : item)
    (api_plans : list (option string * string)) : io bool :=
  match api_plans with
  | [] => mret false
  | (_, api_plan_id) :: rest =>
      hit ← try_except
               (api_plan_details ← get_usage_plan api_plan_id;
                mret (plans_match_by_config db_plan api_plan_details))
               (λ _, mret false);
      if hit : bool then mret true else match_by_config_scan db_plan rest
  end.

Definition missing_evaluation (pid : string) : evaluation :=
  Evaluation "AWS::ApiGateway::UsagePlan" ("missing-" +:+ pid) NON_COMPLIANT
    (truncate_annotation
       ("Usage plan " +:+ pid +:+ " exists in DynamoDB but not in API Gateway")
       max_length)
    "2024-01-01T00:00:00.000Z".

Definition deleted_flag (db_plan : item) : bool :=
  match get db_plan "deleted" with
  | Some v => truthy v
  | None => false
  end.

Fixpoint evaluate_db_plans (api_plans : list (option string * string))
    (db_plans : list item) (evaluations : list evaluation)
  : io (list evaluation) :=
  match db_plans with
  | [] => mret evaluations
  | db_plan :: rest =>
      if deleted_flag db_plan then evaluate_db_plans api_plans rest evaluations
      else if bool_decide (Some (plan_id db_plan) ∈ api_plans.*1)
      then evaluate_db_plans api_plans rest evaluations
      else
        found_match ← match_by_config_scan db_plan api_plans;
        if found_match : bool
        then evaluate_db_plans api_plans rest evaluations
        else evaluate_db_plans api_plans rest
               (evaluations ++ [missing_evaluation (plan_id db_plan)])
  end.

Definition evaluate_deleted_usage_plans : io (list evaluation) :=
  try_except
    (db_plans ← scan;
     api_response ← get_usage_plans;
     evaluate_db_plans (name_to_id api_response) db_plans [])
    (λ _, mret []).

Fixpoint first_plan_with_stage (stage_arn : string) (items : list item)
  : outcome (option item) :=
  match items with
  | [] => Ok None
  | it :: rest =>
      match get it "stages" with
      | Some stages =>
          if truthy stages then
            hit ← py_contains stage_arn stages;
            if hit : bool then Ok (Some it) else first_plan_with_stage stage_arn rest
          else first_plan_with_stage stage_arn rest
      | None => first_plan_with_stage stage_arn rest
      end
  end.

Definition find_usage_plan_for_stage (stage_arn : string) : io (option item) :=
  try_except
    (items ← scan; lift (first_plan_with_stage stage_arn items))
    (λ _, mret None).

Definition verify_stage_exists (stage_arn : string) : io bool :=
  try_except
    (let arn_parts := split "/" stage_arn in
     match index_back arn_parts 3, index_back arn_parts 1 with
     | Some api_id, Some stage_name => get_stage api_id stage_name;; mret true
     | _, _ => raise "IndexError: list index out of range"
     end)
    (λ _, mret false).




(** The search for the plan a stage is attached to: [api_plan_id] keeps
    the id of the last plan that had the stage; the loop stops at the
    first such id that is a non-empty string. *)
Definition has_stage (api_id stage_name : string) (plan : usage_plan) : bool :=
  existsb (λ s, bool_decide (apiId s = Some api_id)
                && bool_decide (stage s = Some stage_name)) (stages_of plan).

Fixpoint associated_plan (api_id stage_name : string) (items : list usage_plan)
    (api_plan_id : option string) : option string :=
  match items with
  | [] => api_plan_id
  | plan :: rest =>
      let api_plan_id :=
        if has_stage api_id stage_name plan then Some (up_id plan) else api_plan_id in
      if nonempty_id api_plan_id then api_plan_id
      else associated_plan api_id stage_name rest api_plan_id
  end.

(** The first scanned item with the plan's three limits. *)
Fixpoint first_same_limits (api_plan : usage_plan) (items : list item)
  : outcome (option item) :=
  match items with
  | [] => Ok None
  | it :: rest =>
      same ← same_limits it api_plan;
      if same : bool then Ok (Some it) else first_same_limits api_plan rest
  end.

(** A branch of [evaluate_resource_compliance] either returns an
    evaluation at once or leaves violations for the common tail. *)
Definition branch_result : Type := evaluation + list violation.

Definition stage_branch (ci : configuration_item) : io branch_result :=
  let resource_type := resourceType ci in
  let resource_id := resourceId ci in
  let stage_arn := resource_id in
  exists_ ← verify_stage_exists stage_arn;
  if negb exists_ then
    mret (inl (create_evaluation_result resource_type resource_id NOT_APPLICABLE
                 "Stage does not exist" ci))
  else
    let arn_parts := split "/" stage_arn in
    match index_back arn_parts 3, index_back arn_parts 1 with
    | Some api_id, Some stage_name =>
        api_usage_plans ← get_usage_plans;
        let api_plan_id := associated_plan api_id stage_name api_usage_plans None in
        db_plan ← find_usage_plan_for_stage stage_arn;
        match db_plan with
        | None =>
            if nonempty_id api_plan_id then
              mret (inl (create_evaluation_result resource_type resource_id NON_COMPLIANT
                ("Stage associated with plan " +:+ default "" api_plan_id
                   +:+ " in API Gateway but not in DynamoDB") ci))
            else
              mret (inl (create_evaluation_result resource_type resource_id NON_COMPLIANT
                "Stage not mapped to any usage plan" ci))
        | Some db_plan =>
            if negb (nonempty_id api_plan_id) then
              mret (inl (create_evaluation_result resource_type resource_id NON_COMPLIANT
                ("Stage mapped to plan " +:+ plan_id db_plan
                   +:+ " in DynamoDB but not in API Gateway") ci))
            else
              let pid := default "" api_plan_id in
              try_except
                (api_plan ← get_usage_plan pid;
                 env ← read region;
                 plan_violations ← lift (validate_plan_configuration env db_plan api_plan);
                 mret (inr plan_violations))
                (λ e, mret (inr [PlanLookupError pid e]))
        end
    | _, _ => raise "IndexError: list index out of range"
    end.

Definition usage_plan_branch (ci : configuration_item) : io branch_result :=
  let resource_type := resourceType ci in
  let resource_id := resourceId ci in
  let usage_plan_id := resource_id in
  try_except
    (api_plan ← get_usage_plan usage_plan_id;
     let api_plan_name := up_name api_plan in
     response ← get_item api_plan_name;
     env ← read region;
     match response with
     | None =>
         items ← scan;
         db_plan ← lift (first_same_limits api_plan items);
         match db_plan with
         | None =>
             try_except
               (delete_usage_plan usage_plan_id;;
                mret (inl (create_evaluation_result resource_type resource_id NON_COMPLIANT
                  ("REMEDIATED: Deleted orphaned plan " +:+ default "None" api_plan_name) ci)))
               (λ _,
                mret (inl (create_evaluation_result resource_type resource_id NON_COMPLIANT
                  "Usage plan not found in DynamoDB (auto-delete failed)" ci)))
         | Some db_plan =>
             plan_violations ← lift (validate_plan_configuration env db_plan api_plan);
             mret (inr plan_violations)
         end
     | Some db_plan =>
         plan_violations ← lift (validate_plan_configuration env db_plan api_plan);
         mret (inr plan_violations)
     end)
    (λ e,
     mret (inl (create_evaluation_result resource_type resource_id NON_COMPLIANT
       ("Error getting API Gateway usage plan: " +:+ e) ci))).

(** "Return result based on violations": a branch that returned keeps
    its evaluation; otherwise the violations decide. *)
Definition conclude (ci : configuration_item) (r : branch_result) : evaluation :=
  let resource_type := resourceType ci in
  let resource_id := resourceId ci in
  match r with
  | inl ev => ev
  | inr [] =>
      create_evaluation_result resource_type resource_id COMPLIANT
        "Resource complies with DynamoDB metadata" ci
  | inr violations =>
      create_evaluation_result resource_type resource_id NON_COMPLIANT
        ("VIOLATIONS: " +:+ str_of_nat (length violations) +:+ " issues found") ci
  end.

Definition evaluate_resource_compliance (ci : configuration_item) : io evaluation :=
  let resource_type := resourceType ci in
  let resource_id := resourceId ci in
  try_except
    (r ← (if String.eqb resource_type "AWS::ApiGateway::Stage" then stage_branch ci
          else if String.eqb resource_type "AWS::ApiGateway::UsagePlan"
          then usage_plan_branch ci
          else mret (inr []));
     mret (conclude ci r))
    (λ e,
     mret (create_evaluation_result resource_type resource_id NON_COMPLIANT
             ("Error evaluating resource: " +:+ e) ci)).

(** [invokingEvent] carries a configuration item, or none for a periodic
    evaluation. *)
Definition lambda_handler (configurationItem : option configuration_item)
  : io response :=
  match configurationItem with
  | None =>
      evaluations ← evaluate_deleted_usage_plans;
      match evaluations with
      | [] => mret ()
      | _ => put_evaluations evaluations
      end;;
      mret (Response 200 ("Periodic evaluation completed: "
              +:+ str_of_nat (length evaluations) +:+ " evaluations"))
  | Some ci =>
      if String.eqb (configurationItemStatus ci) "ResourceDeleted"
         || String.eqb (configurationItemStatus ci) "ResourceNotRecorded"
      then mret (Response 200 "Skipped deleted/unrecorded resource")
      else
        let resource_type := resourceType ci in
        let resource_id := resourceId ci in
        evaluation ←
          (if String.eqb resource_type "AWS::ApiGateway::Stage"
              || String.eqb resource_type "AWS::ApiGateway::UsagePlan"
           then evaluate_resource_compliance ci
           else mret (Evaluation resource_type resource_id NOT_APPLICABLE
                        ("Resource type " +:+ resource_type +:+ " not supported")
                        (configurationItemCaptureTime ci)));
        put_evaluations [evaluation];;
        mret (Response 200 "Evaluation completed")
  end.

End Compliance.

(* ===================================================================== *)
(** ** Enforcement: [configuration_enforcement/handler.py]                *)
(* ===================================================================== *)

Module Enforcement.

(** The bodies are JSON documents or plain text; the documents keep
    their fields. *)
Inductive body :=
| Text (s : string)
| ConfigurationCorrected (pid : string) (drift_detected : list drift)
    (corrections_applied : nat)
| NoDriftDetected (pid : string)
| ManagedPlanDeletedAlert (pid : string)
| UnmanagedPlanDeleted (pid : string).

Record response := Response { statusCode : Z; body_of : body }.

(** A JSON member that may be missing, [null], or an object with an
    optional string member. *)
Inductive member :=
| Missing
| Null
| Object (field : option string).

Record event := Event {
  source : option string;
  eventName : option string;
  responseElements : member;
  event_plan_id : option string }.

(** [record[key]] *)
Definition subscript (it : item) (key : string) : outcome pyval :=
  match get it key with
  | Some v => Ok v
  | None => Raise ("KeyError: " +:+ key)
  end.

(** A value placed in a message that goes through plain [json.dumps]. *)
Definition json_dumps (v : pyval) : outcome pyval :=
  match v with
  | PNum _ => Raise "TypeError: Object of type Decimal is not JSON serializable"
  | _ => Ok v
  end.

Definition send_drift_correction_notification (pid : string)
    (governance_record : item) (drift_detected : list drift) : io unit :=
  plan_name ← lift (subscript governance_record "name" ≫= json_dumps);
  publish (DriftCorrected pid plan_name drift_detected).

Definition send_correction_failure_notification (pid : string)
    (governance_record : item) (error : string) : io unit :=
  plan_name ← lift (subscript governance_record "name" ≫= json_dumps);
  publish (CorrectionFailed pid plan_name error).

Definition send_unmanaged_plans_notification (unmanaged_plans : list usage_plan)
  : io unit :=
  publish (UnmanagedDetected unmanaged_plans).

Definition send_managed_plan_deletion_notification (pid : string)
    (governance_record : item) : io unit :=
  plan_name ← lift (subscript governance_record "name" ≫= json_dumps);
  tier ← lift (json_dumps (default (PStr "Unknown") (get governance_record "tier")));
  publish (ManagedPlanDeleted pid plan_name tier).

(** The comparison of one limit: the drift entry and the patch when the
    live value differs from the expected one. *)
Definition path_of (a : attribute) : string :=
  match a with
  | RateLimit => "/throttle/rateLimit"
  | BurstLimit => "/throttle/burstLimit"
  | QuotaLimit => "/quota/limit"
  end.

Definition check_limit (a : attribute) (current : number) (expected : Z)
    (acc : list drift * list patch_op) : list drift * list patch_op :=
  if negb (num_eq_int current expected)
  then (acc.1 ++ [Drift a current expected],
        acc.2 ++ [Patch "replace" (path_of a) (str_of_int expected)])
  else acc.

(** [drift_detected] and [corrections_needed]; a missing or non-numeric
    limit of the record raises. *)
Definition compare_configuration (governance_record : item)
    (current_config : usage_plan) : outcome (list drift * list patch_op) :=
  let acc := ([], []) in
  let current_rate := default zero (rateLimit (throttle_of current_config)) in
  expected_rate ← subscript governance_record "rate_limit" ≫= py_int;
  let acc := check_limit RateLimit current_rate expected_rate acc in
  let current_burst := default zero (burstLimit (throttle_of current_config)) in
  expected_burst ← subscript governance_record "burst_limit" ≫= py_int;
  let acc := check_limit BurstLimit current_burst expected_burst acc in
  let current_quota := default zero (limit (quota_of current_config)) in
  expected_quota ← subscript governance_record "quota_limit" ≫= py_int;
  let acc := check_limit QuotaLimit current_quota expected_quota acc in
  Ok acc.

Definition enforce_configuration_for_plan (pid : string) : io response :=
  looked_up ← try_except
    (found ← get_item (Some pid);
     match found with
     | None =>
         try_except
           (plan_details ← get_usage_plan pid;
            delete_usage_plan pid)
           (λ _, mret ());;
         mret (inl (Response 404 (Text ("No governance record for plan " +:+ pid))))
     | Some governance_record => mret (inr governance_record)
     end)
    (λ e, mret (inl (Response 500 (Text ("Error reading governance record: " +:+ e)))));
  match looked_up with
  | inl resp => mret resp
  | inr governance_record =>
      fetched ← try_except
        (current_config ← get_usage_plan pid; mret (inr current_config))
        (λ e, mret (inl (Response 500 (Text ("Error reading API Gateway config: " +:+ e)))));
      match fetched with
      | inl resp => mret resp
      | inr current_config =>
          '(drift_detected, corrections_needed) ←
            lift (compare_configuration governance_record current_config);
          match corrections_needed with
          | [] => mret (Response 200 (NoDriftDetected pid))
          | _ =>
              try_except
                (update_usage_plan pid corrections_needed;;
                 send_drift_correction_notification pid governance_record drift_detected;;
                 mret (Response 200 (ConfigurationCorrected pid drift_detected
                                       (length corrections_needed))))
                (λ e,
                 send_correction_failure_notification pid governance_record e;;
                 mret (Response 500 (Text ("Failed to apply corrections: " +:+ e))))
          end
      end
  end.

Definition check_if_unmanaged_plan (pid : string) : io unit :=
  try_except
    (found ← get_item (Some pid);
     match found with
     | None =>
         plan_details ← get_usage_plan pid;
         send_unmanaged_plans_notification [plan_details]
     | Some _ => mret ()
     end)
    (λ _, mret ()).

Definition handle_usage_plan_deletion (pid : string) : io response :=
  try_except
    (found ← get_item (Some pid);
     match found with
     | Some governance_record =>
         send_managed_plan_deletion_notification pid governance_record;;
         mret (Response 200 (ManagedPlanDeletedAlert pid))
     | None => mret (Response 200 (UnmanagedPlanDeleted pid))
     end)
    (λ e, mret (Response 500 (Text ("Error handling deletion: " +:+ e)))).

Definition relevant (event_name : option string) : bool :=
  bool_decide (event_name ∈ [Some "UpdateUsagePlan"; Some "CreateUsagePlan";
                              Some "DeleteUsagePlan"]).

Definition handle_usage_plan_change (ev : event) : io response :=
  let event_name := eventName ev in
  if negb (relevant event_name) then mret (Response 200 (Text "Event not relevant"))
  else
    pid ← match responseElements ev with
          | Missing => mret None
          | Object f => mret f
          | Null => raise "AttributeError: 'NoneType' object has no attribute 'get'"
          end;
    if negb (nonempty_id pid) then mret (Response 400 (Text "No usage plan ID found"))
    else
      let pid := default "" pid in
      if bool_decide (event_name = Some "CreateUsagePlan") then
        check_if_unmanaged_plan pid;;
        enforce_configuration_for_plan pid
      else if bool_decide (event_name = Some "DeleteUsagePlan") then
        handle_usage_plan_deletion pid
      else enforce_configuration_for_plan pid.

Definition lambda_handler (ev : event) : io response :=
  if bool_decide (source ev = Some "aws.apigateway") then handle_usage_plan_change ev
  else if nonempty_id (event_plan_id ev)
  then enforce_configuration_for_plan (default "" (event_plan_id ev))
  else mret (Response 400 (Text "Invalid event")).

End Enforcement.

(* ===================================================================== *)
(** ** Recovery: [usage_plan_recovery/handler.py]                         *)
(* ===================================================================== *)

Module Recovery.

Inductive body :=
| RecreatedSuccessfully (oldPlanId newPlanId : string)
| FailedToRecreate (oldPlanId : string).

Record response := Response { statusCode : Z; body_of : body }.

(** The CloudTrail event: [detail.eventName] and
    [detail.requestParameters.usagePlanId]. *)
Record event := Event {
  eventName : option string;
  requestParameters : Enforcement.member }.

Section WithFloat.

(** [float(v)].  Rounding to binary64 and the float literals of strings
    are not modelled: the handler is embedded for any such conversion. *)
Variable py_float : pyval → outcome number.

Definition stage_count (metadata : item) : nat :=
  match get metadata "stages" with
  | Some (PStrList l) => length l
  | _ => 0%nat
  end.

Definition send_deletion_notification (pid : string) (metadata : item)
    (new_plan_id : option string) : io unit :=
  try_except
    (let plan_name := default (PStr "Unknown") (get metadata "name") in
     let tier := default (PStr "Unknown") (get metadata "tier") in
     if nonempty_id new_plan_id
     then publish (UsagePlanDeleted pid plan_name tier new_plan_id (stage_count metadata))
     else publish (UsagePlanDeleted pid plan_name tier None 0))
    (λ _, mret ()).

(** [api_id = parts[2]; stage_name = parts[4]] under [len(parts) >= 4];
    [None] when the ARN is skipped. *)
Definition parse_stage_arn (stage_arn : string) : option (string * string) :=
  let parts := split "/" stage_arn in
  if (4 <=? length parts)%nat then
    match index parts 2, index parts 4 with
    | Some api_id, Some stage_name => Some (api_id, stage_name)
    | _, _ => None
    end
  else None.

Definition stages_to_associate (metadata : item) : list (string * string) :=
  match get metadata "stages" with
  | Some (PStrList l) => omap parse_stage_arn l
  | _ => []
  end.

Definition stage_patch (st : string * string) : patch_op :=
  Patch "add" "/apiStages" (st.1 +:+ ":" +:+ st.2).

(** The association loop: each stage is tried, a failure is logged and
    the loop goes on; the number of successes is all that is kept. *)
Fixpoint associate_stages (new_plan_id : string) (api_stages : list (string * string))
    (associated_stages : nat) : io nat :=
  match api_stages with
  | [] => mret associated_stages
  | st :: rest =>
      associated_stages ← try_except
        (update_usage_plan new_plan_id [stage_patch st];;
         mret (S associated_stages))
        (λ _, mret associated_stages);
      associate_stages new_plan_id rest associated_stages
  end.

Definition build_create_params (metadata : item) : outcome create_params :=
  let name := default (PStr "Recreated-Plan") (get metadata "name") in
  let description :=
    RecreatedFrom (default (PStr "No description") (get metadata "description")) in
  throttle ← match get metadata "rate_limit", get metadata "burst_limit" with
             | Some rate, Some burst =>
                 r ← py_float rate; b ← py_int burst; Ok (Some (r, b))
             | _, _ => Ok None
             end;
  quota ← match get metadata "quota_limit", get metadata "quota_period" with
          | Some lim, Some per => l ← py_int lim; Ok (Some (l, per))
          | _, _ => Ok None
          end;
  Ok (CreateParams name description throttle quota).

Definition recreate_usage_plan (metadata : item) : io (option string) :=
  try_except
    (create_params ← lift (build_create_params metadata);
     new_plan_id ← create_usage_plan create_params;
     try_except
       (associate_stages new_plan_id (stages_to_associate metadata) 0;; mret ())
       (λ _, mret ());;
     mret (Some new_plan_id))
    (λ _, mret None).

Definition update_dynamodb_record (old_plan_id new_plan_id : string)
    (metadata : item) : io bool :=
  try_except
    (now ← read clock;
     let new_metadata :=
       Item new_plan_id
         (<["recreated_at" := PStr now]>
            (<["recreated_from" := PStr old_plan_id]> (attrs metadata))) in
     put_item new_metadata;;
     now ← read clock;
     update_item old_plan_id
       [("deleted", PBool true); ("recreated_as", PStr new_plan_id);
        ("deleted_at", PStr now)];;
     mret true)
    (λ _, mret false).

Definition lambda_handler (ev : event) : io (option response) :=
  if negb (bool_decide (eventName ev = Some "DeleteUsagePlan")) then mret None
  else
    deleted_plan_id ← match requestParameters ev with
                      | Enforcement.Missing => mret None
                      | Enforcement.Object f => mret f
                      | Enforcement.Null =>
                          raise "AttributeError: 'NoneType' object has no attribute 'get'"
                      end;
    if negb (nonempty_id deleted_plan_id) then mret None
    else
      let deleted_plan_id := default "" deleted_plan_id in
      found ← get_item (Some deleted_plan_id);
      match found with
      | None => mret None
      | Some plan_metadata =>
          send_deletion_notification deleted_plan_id plan_metadata None;;
          new_plan_id ← recreate_usage_plan plan_metadata;
          if nonempty_id new_plan_id then
            let new_id := default "" new_plan_id in
            update_dynamodb_record deleted_plan_id new_id plan_metadata;;
            send_deletion_notification deleted_plan_id plan_metadata new_plan_id;;
            mret (Some (Response 200 (RecreatedSuccessfully deleted_plan_id new_id)))
          else mret (Some (Response 500 (FailedToRecreate deleted_plan_id)))
      end.

End WithFloat.

(** A conversion that keeps the exact value of numbers, enough to run
    the handler on records whose limits are integers. *)
Definition exact_float (v : pyval) : outcome number :=
  match v with
  | PNum n => Ok n
  | PBool b => Ok (of_int (if b then 1 else 0))
  | PStr s =>
      match int_of_str s with
      | Some z => Ok (of_int z)
      | None => Raise "ValueError: could not convert string to float"
      end
  | _ => Raise "TypeError: float() argument must be a string or a number"
  end.

End Recovery.

(* ===================================================================== *)
(** ** Vocabulary of the statements                                       *)
(* ===================================================================== *)

(** All services answer: no call of the run fails at the service. *)
Definition services_up (w : world) : Prop := ∀ n, outage w n = false.

(** The world after the requests [rs] have been logged. *)
Definition logged (rs : list request) (w : world) : world :=
  with_log (log w ++ rs) w.

(** The items a scan returns. *)
Definition scanned (w : world) : list item :=
  (λ kv, Item kv.1 kv.2) <$> map_to_list (table w).

(** The patch requests sent to API Gateway, in order. *)
Definition updates (l : list request) : list (string * list patch_op) :=
  omap (λ r, match r with UpdateUsagePlan pid ops => Some (pid, ops) | _ => None end) l.

(** *** Limits *)






(** The four comparisons of the drift detector: the three limits as
    integers and the two stage sets. *)
Definition four_equal (region : option string) (db_plan : item)
    (api_plan : usage_plan) : Prop :=
  int_or_zero (get db_plan "rate_limit")
    = Ok (api_int (rateLimit (throttle_of api_plan))) ∧
  int_or_zero (get db_plan "burst_limit")
    = Ok (api_int (burstLimit (throttle_of api_plan))) ∧
  int_or_zero (get db_plan "quota_limit")
    = Ok (api_int (limit (quota_of api_plan))) ∧
  Compliance.db_stages_set db_plan = Ok (Compliance.api_stages_set region api_plan).

(** *** Weakest preconditions *)

(** [wp m w Q]: running [m] from [w] ends in a result and a world that
    satisfy [Q]. *)
Definition wp {A} (m : io A) (w : world) (Q : outcome A → world → Prop) : Prop :=
  Q (m w).1 (m w).2.

(** *** Sample data

    The record of the populator's Basic tier, attached to two stages,
    under the identity API Gateway gave its plan. *)

Definition sample_stages : list string :=
  ["arn:aws:apigateway:us-east-1::/restapis/api1/stages/dev";
   "arn:aws:apigateway:us-east-1::/restapis/api1/stages/prod"].

Definition sample_record : gmap string pyval :=
  list_to_map
    [("name", PStr "Basic Tier"); ("tier", PStr "Basic");
     ("rate_limit", PNum (Num 50 0)); ("burst_limit", PNum (Num 100 0));
     ("quota_limit", PNum (Num 10000 0)); ("quota_period", PStr "MONTH");
     ("lifecycle_state", PStr "Active"); ("stages", PStrList sample_stages)].

(** The live plan of the record, with the given rate and quota. *)
Definition sample_plan (rate quota : Z) : usage_plan :=
  UsagePlan "abc123" (Some "Basic Tier") (Some (Plain "Basic tier")) None
    (Some (Throttle (Some (of_int rate)) (Some (of_int 100))))
    (Some (Quota (Some (of_int quota)) (Some (PStr "MONTH")))).

Definition sample_world (records : gmap string (gmap string pyval))
    (live : list usage_plan) (out : nat → bool) : world :=
  World records live [] ["new1"; "new2"] [] [] out None "2024-06-01T00:00:00".

Definition all_up : nat → bool := λ _, false.
Definition out_at (k : nat) : nat → bool := λ n, bool_decide (n = k).

Definition delete_event (pid : string) : Recovery.event :=
  Recovery.Event (Some "DeleteUsagePlan") (Enforcement.Object (Some pid)).

(** *** Lineage *)


(** The two records [update_dynamodb_record] writes. *)
Definition successor_attrs (old_plan_id now : string) (a : gmap string pyval)
  : gmap string pyval :=
  <["recreated_at" := PStr now]> (<["recreated_from" := PStr old_plan_id]> a).

Definition superseded_attrs (new_plan_id now : string) (a : gmap string pyval)
  : gmap string pyval :=
  <["deleted_at" := PStr now]>
    (<["recreated_as" := PStr new_plan_id]> (<["deleted" := PBool true]> a)).

(** The table and the live plans after the sample record was recreated
    once as [new0]. *)
Definition superseded_record : gmap string pyval :=
  superseded_attrs "new0" "2024-05-01T00:00:00" sample_record.

Definition successor_record : gmap string pyval :=
  successor_attrs "abc123" "2024-05-01T00:00:00" sample_record.

Definition recovered_world : world :=
  sample_world
    (<["abc123" := superseded_record]> {[ "new0" := successor_record ]})
    [UsagePlan "new0" (Some "Basic Tier") (Some (RecreatedFrom (PStr "No description")))
       None
       (Some (Throttle (Some (of_int 50)) (Some (of_int 100))))
       (Some (Quota (Some (of_int 10000)) (Some (PStr "MONTH"))))]
    all_up.

(** *** Corrections *)





(** *** Resolution of the record of a live plan *)

(** The record the compliance evaluation of a usage plan resolves for
    the live plan: the record keyed by the plan's name, or else the first
    scanned record with the plan's limits. *)
Definition resolved_record (w : world) (api_plan : usage_plan) (db_plan : item) : Prop :=
  ∃ n, up_name api_plan = Some n ∧
       ((table w !! n = Some (attrs db_plan) ∧ plan_id db_plan = n) ∨
        (table w !! n = None ∧
         Compliance.first_same_limits api_plan (scanned w) = Ok (Some db_plan))).

(** No record is keyed by the plan's name and every record's limits
    compare unequal to the plan's. *)
Definition unmatched (w : world) (api_plan : usage_plan) : Prop :=
  ∃ n, up_name api_plan = Some n ∧ table w !! n = None ∧
       Compliance.first_same_limits api_plan (scanned w) = Ok None.

(** The pair the evaluation of a usage plan hands to the detector. *)
Definition plan_pair (w : world) (usage_plan_id : string)
    (db_plan : item) (api_plan : usage_plan) : Prop :=
  find_plan usage_plan_id (plans w) = Some api_plan ∧
  resolved_record w api_plan db_plan.

(** The pair the evaluation of a stage hands to the detector: the stage
    is deployed, [api_plan] is the live plan the stage is attached to,
    and [db_plan] the first scanned record that lists the stage. *)
Definition stage_pair (w : world) (stage_arn : string)
    (db_plan : item) (api_plan : usage_plan) : Prop :=
  ∃ api_id stage_name pid,
    index_back (split "/" stage_arn) 3 = Some api_id ∧
    index_back (split "/" stage_arn) 1 = Some stage_name ∧
    (api_id, stage_name) ∈ deployed w ∧
    Compliance.associated_plan api_id stage_name (plans w) None = Some pid ∧
    pid ≠ "" ∧
    Compliance.first_plan_with_stage stage_arn (scanned w) = Ok (Some db_plan) ∧
    find_plan pid (plans w) = Some api_plan.

Definition removed (pid : string) (ps : list usage_plan) : list usage_plan :=
  List.filter (λ p, negb (String.eqb (up_id p) pid)) ps.

(** What makes the evaluation of a usage plan end in an error: a call
    failed, the live plan is gone, it has no name, or a coercion raised
    during resolution or detection. *)
Definition plan_error (usage_plan_id : string) (w : world) : Prop :=
  (∃ n, outage w n = true) ∨
  find_plan usage_plan_id (plans w) = None ∨
  ∃ api_plan, find_plan usage_plan_id (plans w) = Some api_plan ∧
    (up_name api_plan = None ∨
     (∃ n e, up_name api_plan = Some n ∧ table w !! n = None ∧
             Compliance.first_same_limits api_plan (scanned w) = Raise e) ∨
     (∃ db_plan e, resolved_record w api_plan db_plan ∧
        Compliance.validate_plan_configuration (region w) db_plan api_plan = Raise e)).

(** The runs of the usage-plan branch: an error (NON_COMPLIANT, plans as
    before), the deletion of an unmatched plan (NON_COMPLIANT), or the
    detector's violations for the resolved pair. *)
Inductive plan_run (usage_plan_id : string) (w : world)
  : outcome Compliance.branch_result → world → Prop :=
| plan_run_error ev w' :
    ComplianceType ev = NON_COMPLIANT →
    table w' = table w → plans w' = plans w →
    plan_error usage_plan_id w →
    plan_run usage_plan_id w (Ok (inl ev)) w'
| plan_run_removed api_plan ev w' :
    find_plan usage_plan_id (plans w) = Some api_plan →
    unmatched w api_plan →
    ComplianceType ev = NON_COMPLIANT →
    table w' = table w → plans w' = removed usage_plan_id (plans w) →
    plan_run usage_plan_id w (Ok (inl ev)) w'
| plan_run_verdict api_plan db_plan vs w' :
    plan_pair w usage_plan_id db_plan api_plan →
    Compliance.validate_plan_configuration (region w) db_plan api_plan = Ok vs →
    table w' = table w → plans w' = plans w →
    plan_run usage_plan_id w (Ok (inr vs)) w'.

Definition sample_item (resource_type resource_id : string)
  : Compliance.configuration_item :=
  Compliance.ConfigurationItem resource_type resource_id "OK"
    "2024-06-01T00:00:00.000Z".

(** *** Evaluation of a stage *)

(** [w'] differs from [w] by logged calls only. *)
Definition reads_only (w w' : world) : Prop :=
  table w' = table w ∧ plans w' = plans w ∧ deployed w' = deployed w ∧
  outage w' = outage w ∧ region w' = region w.

Definition stage_deployed (w : world) (stage_arn : string) : Prop :=
  ∃ api_id stage_name,
    index_back (split "/" stage_arn) 3 = Some api_id ∧
    index_back (split "/" stage_arn) 1 = Some stage_name ∧
    (api_id, stage_name) ∈ deployed w.

(** The runs of the stage branch: the listing of the plans failed; the
    stage is not there (NOT_APPLICABLE); the stage has no pair to hand to
    the detector (NON_COMPLIANT); the live plan could not be read or the
    detector raised (one violation); or the detector's violations for the
    pair. *)
Inductive stage_run (stage_arn : string) (w : world)
  : outcome Compliance.branch_result → world → Prop :=
| stage_run_raise e w' :
    reads_only w w' → stage_deployed w stage_arn → (∃ n, outage w n = true) →
    stage_run stage_arn w (Raise e) w'
| stage_run_absent ev w' :
    reads_only w w' → ComplianceType ev = NOT_APPLICABLE →
    (∃ n, outage w n = true) ∨ ¬ stage_deployed w stage_arn →
    stage_run stage_arn w (Ok (inl ev)) w'
| stage_run_unmapped ev w' :
    reads_only w w' → stage_deployed w stage_arn →
    ComplianceType ev = NON_COMPLIANT →
    (∃ n, outage w n = true) ∨ (∀ db_plan api_plan, ¬ stage_pair w stage_arn db_plan api_plan) →
    stage_run stage_arn w (Ok (inl ev)) w'
| stage_run_lookup_error pid e w' :
    reads_only w w' → stage_deployed w stage_arn →
    (∃ n, outage w n = true) ∨
    (∀ db_plan api_plan, ¬ stage_pair w stage_arn db_plan api_plan) ∨
    (∃ db_plan api_plan e',
       stage_pair w stage_arn db_plan api_plan ∧
       Compliance.validate_plan_configuration (region w) db_plan api_plan = Raise e') →
    stage_run stage_arn w (Ok (inr [Compliance.PlanLookupError pid e])) w'
| stage_run_verdict db_plan api_plan vs w' :
    reads_only w w' →
    stage_pair w stage_arn db_plan api_plan →
    Compliance.validate_plan_configuration (region w) db_plan api_plan = Ok vs →
    stage_run stage_arn w (Ok (inr vs)) w'.

(** *** Stage references *)

Definition no_slash (s : string) : Prop := "/"%char ∉ chars s.

(* ===================================================================== *)
(** ** Annotations                                                        *)
(* ===================================================================== *)

Lemma length_append (s1 s2 : string) :
  String.length (s1 +:+ s2) = (String.length s1 + String.length s2)%nat.
Proof. induction s1 as [|c s1 IH]; simpl; [done | by rewrite IH]. Qed.

Lemma length_substring_0 (n : nat) (s : string) :
  String.length (substring 0 n s) = (n `min` String.length s)%nat.
Proof.
  revert s; induction n as [|n IH]; intros [|c s]; simpl; try done.
  by rewrite IH.
Qed.

Lemma substring_0_all (n : nat) (s : string) :
  (String.length s ≤ n)%nat → substring 0 n s = s.
Proof.
  revert s; induction n as [|n IH]; intros [|c s]; simpl; try done; try lia.
  intros ?. rewrite IH; [done | lia].
Qed.

(** C9.  A text of at most 256 characters is returned unchanged; a longer
    one becomes its first 253 characters followed by ["..."], 256
    characters in all. *)
Theorem truncate_annotation_256 (annotation : string) :
  (len annotation ≤ 256 →
     Compliance.truncate_annotation annotation Compliance.max_length = annotation) ∧
  (256 < len annotation →
     Compliance.truncate_annotation annotation Compliance.max_length
       = substring 0 253 annotation +:+ "..." ∧
     String.length (substring 0 253 annotation) = 253%nat ∧
     len (Compliance.truncate_annotation annotation Compliance.max_length) = 256).
Proof.
  unfold Compliance.truncate_annotation, Compliance.max_length, len.
  split; intros H.
  - destruct (Z.leb_spec (Z.of_nat (String.length annotation)) 256); [done | lia].
  - destruct (Z.leb_spec (Z.of_nat (String.length annotation)) 256); [lia |].
    assert (Hs : slice_to (256 - 3) annotation = substring 0 253 annotation)
      by reflexivity.
    rewrite Hs, length_append, length_substring_0.
    split; [done |]. split; [lia |]. simpl String.length. lia.
Qed.

Lemma truncate_annotation_256_witness :
  len (Compliance.truncate_annotation (text (replicate 300 "x"%char))
         Compliance.max_length) = 256 ∧
  Compliance.truncate_annotation (text (replicate 200 "x"%char))
    Compliance.max_length = text (replicate 200 "x"%char).
Proof.
  split.
  - apply (proj2 (truncate_annotation_256 (text (replicate 300 "x"%char)))).
    vm_compute; reflexivity.
  - apply (proj1 (truncate_annotation_256 (text (replicate 200 "x"%char)))).
    vm_compute; discriminate.
Defined.

(* ===================================================================== *)
(** ** The comparison of limits                                           *)
(* ===================================================================== *)

Section Limits.
Import Compliance.











End Limits.

(* ===================================================================== *)
(** ** Reasoning about handler code                                       *)
(* ===================================================================== *)

Lemma wp_mono {A} (m : io A) w (Q Q' : outcome A → world → Prop) :
  wp m w Q → (∀ o w', Q o w' → Q' o w') → wp m w Q'.
Proof. unfold wp; auto. Qed.

Lemma wp_ret {A} (a : A) w Q : Q (Ok a) w → wp (mret a) w Q.
Proof. done. Qed.

Lemma wp_raise {A} (e : string) w (Q : outcome A → world → Prop) :
  Q (Raise e) w → wp (raise e) w Q.
Proof. done. Qed.

Lemma wp_lift {A} (o : outcome A) w Q : Q o w → wp (lift o) w Q.
Proof. done. Qed.

Lemma wp_read {A} (f : world → A) w Q : Q (Ok (f w)) w → wp (read f) w Q.
Proof. done. Qed.

Lemma wp_modify (f : world → world) w Q : Q (Ok ()) (f w) → wp (modify f) w Q.
Proof. done. Qed.

Lemma wp_bind {A B} (m : io A) (f : A → io B) w Q :
  wp m w (λ o w', match o with
                  | Ok a => wp (f a) w' Q
                  | Raise e => Q (Raise e) w'
                  end) →
  wp (m ≫= f) w Q.
Proof.
  unfold wp, mbind, io_bind. destruct (m w) as [[a|e] w']; simpl; done.
Qed.

Lemma wp_try {A} (body : io A) (handler : string → io A) w Q :
  wp body w (λ o w', match o with
                     | Ok a => Q (Ok a) w'
                     | Raise e => wp (handler e) w' Q
                     end) →
  wp (try_except body handler) w Q.
Proof.
  unfold wp, try_except. destruct (body w) as [[a|e] w']; simpl; done.
Qed.

Lemma wp_call (r : request) w Q :
  (outage w (length (log w)) = true → Q (Raise "ServiceUnavailable") (logged [r] w)) →
  (outage w (length (log w)) = false → Q (Ok ()) (logged [r] w)) →
  wp (call r) w Q.
Proof.
  unfold wp, call, logged. destruct (outage w (length (log w))); simpl; auto.
Qed.

Lemma services_up_logged rs w : services_up w → services_up (logged rs w).
Proof. done. Qed.

(** *** The calls *)

Ltac run_call :=
  unfold wp, mbind, io_bind, mret, io_ret, raise, read, modify, lift, call, logged;
  simpl.

Lemma wp_get_item key w Q :
  let w1 := logged [GetItem key] w in
  (∀ e, outage w (length (log w)) = true ∨ key = None → Q (Raise e) w1) →
  (∀ k, key = Some k → outage w (length (log w)) = false →
        Q (Ok (Item k <$> table w !! k)) w1) →
  wp (get_item key) w Q.
Proof.
  intros w1 Hf Hs. subst w1. revert Hf Hs. unfold get_item. run_call.
  destruct (outage w (length (log w))); simpl; [auto |].
  destruct key; simpl; auto.
Qed.

Lemma wp_scan w Q :
  let w1 := logged [ScanTable] w in
  (∀ e, outage w (length (log w)) = true → Q (Raise e) w1) →
  (outage w (length (log w)) = false → Q (Ok (scanned w)) w1) →
  wp scan w Q.
Proof.
  intros w1 Hf Hs. subst w1. revert Hf Hs. unfold scan. run_call.
  destruct (outage w (length (log w))); simpl; auto.
Qed.

Lemma wp_put_item it w Q :
  let w1 := logged [PutItem it] w in
  (∀ e, outage w (length (log w)) = true → Q (Raise e) w1) →
  (outage w (length (log w)) = false →
     Q (Ok ()) (with_table (<[plan_id it := attrs it]> (table w)) w1)) →
  wp (put_item it) w Q.
Proof.
  intros w1 Hf Hs. subst w1. revert Hf Hs. unfold put_item. run_call.
  destruct (outage w (length (log w))); simpl; auto.
Qed.

Lemma wp_update_item key sets w Q :
  let w1 := logged [UpdateItem key sets] w in
  (∀ e, outage w (length (log w)) = true → Q (Raise e) w1) →
  (outage w (length (log w)) = false →
     Q (Ok ()) (with_table
                  (<[key := apply_sets sets (default ∅ (table w !! key))]> (table w)) w1)) →
  wp (update_item key sets) w Q.
Proof.
  intros w1 Hf Hs. subst w1. revert Hf Hs. unfold update_item. run_call.
  destruct (outage w (length (log w))); simpl; auto.
Qed.

Lemma wp_get_usage_plans w Q :
  let w1 := logged [GetUsagePlans] w in
  (∀ e, outage w (length (log w)) = true → Q (Raise e) w1) →
  (outage w (length (log w)) = false → Q (Ok (plans w)) w1) →
  wp get_usage_plans w Q.
Proof.
  intros w1 Hf Hs. subst w1. revert Hf Hs. unfold get_usage_plans. run_call.
  destruct (outage w (length (log w))); simpl; auto.
Qed.

Lemma wp_get_usage_plan pid w Q :
  let w1 := logged [GetUsagePlan pid] w in
  (∀ e, outage w (length (log w)) = true ∨ find_plan pid (plans w) = None →
        Q (Raise e) w1) →
  (∀ p, find_plan pid (plans w) = Some p → outage w (length (log w)) = false →
        Q (Ok p) w1) →
  wp (get_usage_plan pid) w Q.
Proof.
  intros w1 Hf Hs. subst w1. revert Hf Hs. unfold get_usage_plan. run_call.
  destruct (outage w (length (log w))); simpl; [auto |].
  destruct (find_plan pid (plans w)); simpl; auto.
Qed.

Lemma wp_create_usage_plan params w Q :
  let w1 := logged [CreateUsagePlan params] w in
  (∀ e, Q (Raise e) w1) →
  (∀ new_id rest p,
     id_supply w = new_id :: rest → up_id p = new_id →
     outage w (length (log w)) = false →
     Q (Ok new_id) (with_id_supply rest (with_plans (plans w ++ [p]) w1))) →
  wp (create_usage_plan params) w Q.
Proof.
  intros w1 Hf Hs. subst w1. revert Hf Hs. unfold create_usage_plan. run_call.
  destruct (outage w (length (log w))); simpl; [auto |].
  destruct (cp_name params); simpl; auto.
  destruct (id_supply w) as [|new_id rest] eqn:E; simpl; auto.
  destruct (cp_quota params) as [[? []]|]; simpl; auto.
Qed.

Lemma wp_update_usage_plan pid ops w Q :
  let w1 := logged [UpdateUsagePlan pid ops] w in
  (∀ e, Q (Raise e) w1) →
  (∀ p p', find_plan pid (plans w) = Some p → apply_patches ops p = Ok p' →
           outage w (length (log w)) = false →
           Q (Ok ()) (with_plans (replace_plan p' (plans w)) w1)) →
  wp (update_usage_plan pid ops) w Q.
Proof.
  intros w1 Hf Hs. subst w1. revert Hf Hs. unfold update_usage_plan. run_call.
  destruct (outage w (length (log w))); simpl; [auto |].
  destruct (find_plan pid (plans w)) as [p|] eqn:E; simpl; auto.
  destruct (apply_patches ops p) as [p'|] eqn:E'; simpl; eauto.
Qed.

Lemma wp_delete_usage_plan pid w Q :
  let w1 := logged [DeleteUsagePlan pid] w in
  (∀ e, outage w (length (log w)) = true ∨ find_plan pid (plans w) = None →
        Q (Raise e) w1) →
  (∀ p, find_plan pid (plans w) = Some p → outage w (length (log w)) = false →
        Q (Ok ()) (with_plans
                     (List.filter (λ q, negb (String.eqb (up_id q) pid)) (plans w)) w1)) →
  wp (delete_usage_plan pid) w Q.
Proof.
  intros w1 Hf Hs. subst w1. revert Hf Hs. unfold delete_usage_plan. run_call.
  destruct (outage w (length (log w))); simpl; [auto |].
  destruct (find_plan pid (plans w)) eqn:E; simpl; eauto.
Qed.

Lemma wp_get_stage api stage_name w Q :
  let w1 := logged [GetStage api stage_name] w in
  (∀ e, outage w (length (log w)) = true ∨ (api, stage_name) ∉ deployed w →
        Q (Raise e) w1) →
  ((api, stage_name) ∈ deployed w → outage w (length (log w)) = false →
   Q (Ok ()) w1) →
  wp (get_stage api stage_name) w Q.
Proof.
  intros w1 Hf Hs. subst w1. revert Hf Hs. unfold get_stage. run_call.
  destruct (outage w (length (log w))); simpl; [auto |].
  case_bool_decide; simpl; auto.
Qed.

Lemma wp_publish n w Q :
  let w1 := logged [Publish n] w in
  (∀ e, outage w (length (log w)) = true → Q (Raise e) w1) →
  (outage w (length (log w)) = false →
   Q (Ok ()) (with_outbox (outbox w ++ [n]) w1)) →
  wp (publish n) w Q.
Proof.
  intros w1 Hf Hs. subst w1. revert Hf Hs. unfold publish. run_call.
  destruct (outage w (length (log w))); simpl; auto.
Qed.

Lemma wp_put_evaluations evs w Q :
  let w1 := logged [PutEvaluations evs] w in
  (∀ e, outage w (length (log w)) = true → Q (Raise e) w1) →
  (outage w (length (log w)) = false → Q (Ok ()) w1) →
  wp (put_evaluations evs) w Q.
Proof.
  intros w1 Hf Hs. subst w1. revert Hf Hs. unfold put_evaluations. run_call.
  destruct (outage w (length (log w))); simpl; auto.
Qed.

#[global] Arguments wp : simpl never.

Ltac wp_step :=
  lazymatch goal with
  | |- wp (mbind _ _) _ _ => apply wp_bind
  | |- wp (try_except _ _) _ _ => apply wp_try
  | |- wp (mret _) _ _ => apply wp_ret
  | |- wp (raise _) _ _ => apply wp_raise
  | |- wp (lift _) _ _ => apply wp_lift
  | |- wp (read _) _ _ => apply wp_read
  | |- wp (modify _) _ _ => apply wp_modify
  | |- wp (get_item _) _ _ => apply wp_get_item
  | |- wp scan _ _ => apply wp_scan
  | |- wp (put_item _) _ _ => apply wp_put_item
  | |- wp (update_item _ _) _ _ => apply wp_update_item
  | |- wp get_usage_plans _ _ => apply wp_get_usage_plans
  | |- wp (get_usage_plan _) _ _ => apply wp_get_usage_plan
  | |- wp (create_usage_plan _) _ _ => apply wp_create_usage_plan
  | |- wp (update_usage_plan _ _) _ _ => apply wp_update_usage_plan
  | |- wp (delete_usage_plan _) _ _ => apply wp_delete_usage_plan
  | |- wp (get_stage _ _) _ _ => apply wp_get_stage
  | |- wp (publish _) _ _ => apply wp_publish
  | |- wp (put_evaluations _) _ _ => apply wp_put_evaluations
  end.

Ltac wp_steps := repeat (wp_step; simpl; intros).

(* ===================================================================== *)
(** ** Recovery                                                           *)
(* ===================================================================== *)

Lemma length_replace_plan p ps : length (replace_plan p ps) = length ps.
Proof.
  induction ps as [|q ps IH]; simpl; [done |].
  destruct (String.eqb (up_id q) (up_id p)); simpl; by rewrite ?IH.
Qed.

Section RecoveryFacts.
Import Recovery.
Variable py_float : pyval → outcome number.

(** The association loop tries every stage, whatever fails, and touches
    neither the table nor the number of plans. *)
Lemma associate_stages_spec new_plan_id api_stages n w :
  wp (associate_stages new_plan_id api_stages n) w (λ o w',
    is_ok o = true ∧ table w' = table w ∧ outbox w' = outbox w ∧
    length (plans w') = length (plans w) ∧
    log w' = log w ++ ((λ st, UpdateUsagePlan new_plan_id [stage_patch st]) <$> api_stages)).
Proof.
  revert n w. induction api_stages as [|st rest IH]; intros n w; simpl.
  - wp_step. by rewrite app_nil_r.
  - wp_steps.
    + eapply wp_mono; [apply IH |]. simpl. intros o w' (? & ? & ? & ? & ->).
      rewrite <- app_assoc. done.
    + eapply wp_mono; [apply IH |]. simpl. intros o w' (? & ? & ? & -> & ->).
      rewrite length_replace_plan, <- app_assoc. done.
Qed.

Lemma updates_app l1 l2 : updates (l1 ++ l2) = updates l1 ++ updates l2.
Proof. apply omap_app. Qed.

Lemma updates_stage_patches new_plan_id api_stages :
  updates ((λ st, UpdateUsagePlan new_plan_id [stage_patch st]) <$> api_stages)
    = (λ st, (new_plan_id, [stage_patch st])) <$> api_stages.
Proof.
  induction api_stages as [|st rest IH]; [done |].
  unfold updates in *. csimpl. by rewrite IH.
Qed.

Lemma recreate_usage_plan_spec metadata w :
  wp (recreate_usage_plan py_float metadata) w (λ o w',
    table w' = table w ∧ outbox w' = outbox w ∧
    ((o = Ok None ∧ plans w' = plans w) ∨
     (∃ new_id, o = Ok (Some new_id) ∧ length (plans w') = S (length (plans w)) ∧
        updates (log w') = updates (log w) ++
          ((λ st, (new_id, [stage_patch st])) <$> stages_to_associate metadata)))).
Proof.
  unfold recreate_usage_plan. wp_steps.
  destruct (build_create_params py_float metadata) as [params|e]; simpl.
  - wp_steps; [auto |].
    eapply wp_mono; [apply associate_stages_spec |]. simpl.
    intros [k|e] w' (_ & Ht & Ho & Hl & Hlog); wp_steps;
      (split; [done | split; [done | right; eexists; split; [done |]]]);
      rewrite Hl, length_app, Hlog, !updates_app, updates_stage_patches;
      simpl; rewrite app_nil_r; (split; [lia | done]).
  - wp_steps. auto.
Qed.

Lemma send_deletion_notification_spec pid metadata new_plan_id w :
  wp (send_deletion_notification pid metadata new_plan_id) w (λ o w',
    o = Ok () ∧ table w' = table w ∧ plans w' = plans w).
Proof.
  unfold send_deletion_notification. wp_step.
  destruct (nonempty_id new_plan_id); wp_steps; done.
Qed.

Lemma update_dynamodb_record_keeps_plans old_plan_id new_plan_id metadata w :
  wp (update_dynamodb_record old_plan_id new_plan_id metadata) w (λ o w',
    plans w' = plans w).
Proof. unfold update_dynamodb_record. wp_steps; done. Qed.

Lemma recovery_handler_spec (ev : event) (w : world) :
  wp (lambda_handler py_float ev) w (λ o w',
    plans w' = plans w →
    table w' = table w ∧
    (∀ old new, o ≠ Ok (Some (Response 200 (RecreatedSuccessfully old new)))) ∧
    (∀ pid a,
       eventName ev = Some "DeleteUsagePlan" →
       requestParameters ev = Enforcement.Object (Some pid) → pid ≠ "" →
       table w !! pid = Some a → outage w (length (log w)) = false →
       o = Ok (Some (Response 500 (FailedToRecreate pid))))).
Proof.
  unfold lambda_handler.
  case_bool_decide as Hev; simpl; [| wp_steps; repeat split; intros; congruence].
  wp_step.
  destruct (requestParameters ev) as [| | [pid|]] eqn:Hrp; wp_steps;
    try (repeat split; intros; congruence).
  destruct (String.eqb_spec pid "") as [-> | Hpid]; simpl;
    [wp_steps; repeat split; intros; congruence |].
  wp_steps.
  { repeat split; intros; simplify_eq/=; destruct H; congruence. }
  simplify_eq/=.
  destruct (table w !! k) as [a|] eqn:Hrec; simpl;
    [| wp_steps; repeat split; intros; simplify_eq/=; congruence].
  wp_step. eapply wp_mono; [apply send_deletion_notification_spec |].
  simpl. intros o w1 (-> & Ht1 & Hp1). simpl.
  wp_step. eapply wp_mono; [apply recreate_usage_plan_spec |].
  simpl. intros o w2 (Ht2 & _ & [(-> & Hp2) | (new_id & -> & Hp2 & _)]); simpl.
  - wp_steps. repeat split; intros; simplify_eq/=; congruence.
  - destruct (String.eqb new_id ""); simpl.
    2: { wp_step. eapply wp_mono; [apply update_dynamodb_record_keeps_plans |].
      simpl. intros [ok|e] w3 Hp3; [| intros Hp; exfalso].
      - wp_step. eapply wp_mono; [apply send_deletion_notification_spec |].
        simpl. intros o w4 (-> & Ht4 & Hp4). simpl. wp_steps. exfalso.
        assert (H1 : length (plans w4) = length (plans w)) by congruence.
        rewrite Hp4, Hp3, Hp2, Hp1 in H1. lia.
      - assert (H1 : length (plans w3) = length (plans w)) by congruence.
        rewrite Hp3, Hp2, Hp1 in H1. lia. }
    wp_steps. exfalso.
    assert (H1 : length (plans w2) = length (plans w)) by congruence.
    rewrite Hp2, Hp1 in H1. lia.
Qed.

(** C6.  [recreate_usage_plan] reports a failed creation as [None], and
    does so exactly when it leaves the live plans as they were.  A run of
    the handler that leaves the live plans as they were (no replacement
    was created) leaves the table as it was and does not report success;
    when the event names a record of the table, the run answers 500 and
    the record is still the one the table held. *)
Theorem failed_creation_leaves_record :
  (∀ metadata w,
     let r := recreate_usage_plan py_float metadata w in
     table r.2 = table w ∧ (r.1 = Ok None ↔ plans r.2 = plans w)) ∧
  (∀ ev w,
     let res := lambda_handler py_float ev w in
     plans res.2 = plans w →
     table res.2 = table w ∧
     (∀ old new, res.1 ≠ Ok (Some (Response 200 (RecreatedSuccessfully old new)))) ∧
     (∀ pid a,
        eventName ev = Some "DeleteUsagePlan" →
        requestParameters ev = Enforcement.Object (Some pid) → pid ≠ "" →
        table w !! pid = Some a → outage w (length (log w)) = false →
        res.1 = Ok (Some (Response 500 (FailedToRecreate pid))) ∧
        table res.2 !! pid = Some a)).
Proof.
  split.
  - intros metadata w r.
    destruct (recreate_usage_plan_spec metadata w)
      as (Ht & _ & [(Hn & Hp) | (new_id & Hs & Hl & _)]); fold r in Ht |- *.
    + fold r in Hn, Hp. done.
    + fold r in Hs, Hl. split; [done |]. rewrite Hs. split; [done |].
      intros Hp. rewrite Hp in Hl. lia.
  - intros ev w res Hp.
    destruct (recovery_handler_spec ev w Hp) as (Ht & Hno & H500).
    fold res in Ht, Hno, H500. repeat split; [done | done | eauto |].
    rewrite Ht. done.
Qed.

End RecoveryFacts.

Lemma failed_creation_leaves_record_witness :
  let w := sample_world {[ "abc123" := sample_record ]} [] (out_at 2) in
  let res := Recovery.lambda_handler Recovery.exact_float (delete_event "abc123") w in
  plans res.2 = plans w ∧
  res.1 = Ok (Some (Recovery.Response 500 (Recovery.FailedToRecreate "abc123"))) ∧
  table res.2 !! "abc123" = Some sample_record.
Proof.
  intros w res.
  assert (Hp : plans res.2 = plans w) by (vm_compute; reflexivity).
  split; [exact Hp |].
  apply (proj2 (failed_creation_leaves_record Recovery.exact_float)
           (delete_event "abc123") w Hp);
    [reflexivity | reflexivity | discriminate | vm_compute; reflexivity | reflexivity].
Defined.


(* ===================================================================== *)
(** ** Lineage of recreated records                                       *)
(* ===================================================================== *)

Section Lineage.
Import Recovery.

(** [update_dynamodb_record] answers [True] exactly when both writes went
    through, and then the table is the old one with the two records
    written. *)
Lemma update_dynamodb_record_spec old_plan_id new_plan_id metadata w :
  wp (update_dynamodb_record old_plan_id new_plan_id metadata) w (λ o w',
    let t1 := <[new_plan_id := successor_attrs old_plan_id (clock w) (attrs metadata)]>
                (table w) in
    (o = Ok false ∧ (table w' = table w ∨ table w' = t1)) ∨
    (o = Ok true ∧
     table w' = <[old_plan_id :=
                    superseded_attrs new_plan_id (clock w) (default ∅ (t1 !! old_plan_id))]> t1)).
Proof.
  unfold update_dynamodb_record. wp_steps; auto.
Qed.




End Lineage.


(* ===================================================================== *)
(** ** The stages of a recreated record                                   *)
(* ===================================================================== *)

Section Stages.
Import Recovery.
Variable py_float : pyval → outcome number.

(** A run that reports success wrote, under a new key that was free, the
    old record with the two lineage attributes added. *)
Lemma recovery_handler_record (ev : event) (w : world) :
  wp (lambda_handler py_float ev) w (λ o w',
    ∀ old new a,
      o = Ok (Some (Response 200 (RecreatedSuccessfully old new))) →
      table w !! new = None → table w' !! new = Some a →
      ∃ a0 now, table w !! old = Some a0 ∧ a = successor_attrs old now a0).
Proof.
  unfold lambda_handler.
  case_bool_decide as Hev; simpl; [| wp_steps; congruence].
  wp_step.
  destruct (requestParameters ev) as [| | [pid|]] eqn:Hrp; wp_steps;
    try congruence.
  destruct (String.eqb_spec pid "") as [-> | Hpid]; simpl; [wp_steps; congruence |].
  wp_steps; [congruence |]. simplify_eq/=.
  destruct (table w !! k) as [a0|] eqn:Hrec; simpl; [| wp_steps; congruence].
  wp_step. eapply wp_mono; [apply send_deletion_notification_spec |].
  simpl. intros o w1 (-> & Ht1 & _). simpl.
  wp_step. eapply wp_mono; [apply recreate_usage_plan_spec |].
  simpl. intros o w2 (Ht2 & _ & [(-> & _) | (new_id & -> & _)]); simpl.
  { wp_steps. congruence. }
  destruct (String.eqb new_id ""); simpl; [wp_steps; congruence |].
  wp_step. eapply wp_mono; [apply update_dynamodb_record_spec |].
  simpl. intros o w3 Hw3.
  assert (Hcases : ∀ w4, table w4 = table w3 →
            ∀ a, table w !! new_id = None → table w4 !! new_id = Some a →
                 ∃ a0' now, table w !! k = Some a0' ∧ a = successor_attrs k now a0').
  { intros w4 Ht4 a Hfresh Ha. rewrite Ht4 in Ha.
    rewrite Ht2, Ht1 in Hw3. simpl in Hw3.
    assert (Hne : new_id ≠ k) by congruence.
    destruct Hw3 as [(_ & [Ht | Ht]) | (_ & Ht)]; rewrite Ht in Ha.
    - congruence.
    - rewrite lookup_insert_eq in Ha. injection Ha as <-. eauto.
    - rewrite lookup_insert_ne, lookup_insert_eq in Ha by done.
      injection Ha as <-. eauto. }
  destruct o as [b|e]; [| intros ? ? ? ?; congruence].
  wp_step. eapply wp_mono; [apply send_deletion_notification_spec |].
  simpl. intros o w4 (-> & Ht4 & _). simpl. wp_steps.
  simplify_eq/=. eauto.
Qed.

(** C2, as the code has it.  The association loop never raises and sends
    one request per stage, in order, whatever fails; a successful
    recreation has tried every stage parsed from the record; and the
    record written under the new key carries the [stages] of the old
    record, whichever associations went through. *)
Theorem new_record_copies_stages :
  (∀ new_plan_id api_stages n w,
     let res := associate_stages new_plan_id api_stages n w in
     is_ok res.1 = true ∧
     log res.2 = log w ++
       ((λ st, UpdateUsagePlan new_plan_id [stage_patch st]) <$> api_stages)) ∧
  (∀ metadata w new_plan_id,
     let res := recreate_usage_plan py_float metadata w in
     res.1 = Ok (Some new_plan_id) →
     updates (log res.2) = updates (log w) ++
       ((λ st, (new_plan_id, [stage_patch st])) <$> stages_to_associate metadata)) ∧
  (∀ ev w old new a,
     let res := lambda_handler py_float ev w in
     res.1 = Ok (Some (Response 200 (RecreatedSuccessfully old new))) →
     table w !! new = None → table res.2 !! new = Some a →
     ∃ a0, table w !! old = Some a0 ∧ a !! "stages" = a0 !! "stages" ∧
           a !! "recreated_from" = Some (PStr old)).
Proof.
  split; [| split].
  - intros new_plan_id api_stages n w res.
    destruct (associate_stages_spec new_plan_id api_stages n w)
      as (Hok & _ & _ & _ & Hlog). done.
  - intros metadata w new_plan_id res Hres. subst res.
    destruct (recreate_usage_plan_spec py_float metadata w)
      as (_ & _ & [(Hn & _) | (new_id & Hs & _ & Hu)]); [congruence |].
    rewrite Hs in Hres. injection Hres as ->. exact Hu.
  - intros ev w old new a res Hres Hfresh Ha.
    destruct (recovery_handler_record ev w old new a Hres Hfresh Ha)
      as (a0 & now & Ha0 & ->).
    exists a0. split; [done |]. unfold successor_attrs. split.
    + by rewrite !lookup_insert_ne by done.
    + by rewrite lookup_insert_ne, lookup_insert_eq by done.
Qed.

End Stages.

(** C2, as the claim has it, fails: with two stages on the record and
    the second association failing, the recreation is reported as
    successful, the new plan has one stage, and the new record lists
    both. *)
Lemma new_record_lists_unassociated_stage :
  let w := sample_world {[ "abc123" := sample_record ]} [] (out_at 4) in
  let res := Recovery.lambda_handler Recovery.exact_float (delete_event "abc123") w in
  res.1 = Ok (Some (Recovery.Response 200
                      (Recovery.RecreatedSuccessfully "abc123" "new1"))) ∧
  updates (log res.2) =
    [("new1", [Patch "add" "/apiStages" "api1:dev"]);
     ("new1", [Patch "add" "/apiStages" "api1:prod"])] ∧
  stages_of <$> find_plan "new1" (plans res.2)
    = Some [ApiStage (Some "api1") (Some "dev")] ∧
  table res.2 !! "new1" ≫= (λ a, a !! "stages") = Some (PStrList sample_stages).
Proof. vm_compute. repeat split; reflexivity. Qed.

Lemma new_record_copies_stages_witness :
  let w := sample_world {[ "abc123" := sample_record ]} [] (out_at 4) in
  let res := Recovery.lambda_handler Recovery.exact_float (delete_event "abc123") w in
  ∃ a a0, table res.2 !! "new1" = Some a ∧ table w !! "abc123" = Some a0 ∧
          a !! "stages" = a0 !! "stages".
Proof.
  intros w res.
  assert (Hres : res.1 = Ok (Some (Recovery.Response 200
                   (Recovery.RecreatedSuccessfully "abc123" "new1"))))
    by (vm_compute; reflexivity).
  assert (Hfresh : table w !! "new1" = None) by reflexivity.
  destruct (table res.2 !! "new1") as [a|] eqn:Ha; [| vm_compute in Ha; discriminate].
  destruct (proj2 (proj2 (new_record_copies_stages Recovery.exact_float))
              (delete_event "abc123") w "abc123" "new1" a Hres Hfresh Ha)
    as (a0 & Ha0 & Hst & _).
  exists a, a0. done.
Defined.

(* ===================================================================== *)
(** ** Records flagged deleted                                            *)
(* ===================================================================== *)

(** C3, at the failing input.  The periodic evaluation passes over a
    record flagged deleted without a call.  The recovery handler does not
    look at the flag: on a deletion event that names a record already
    superseded it creates one more live plan and one more record, and it
    does so again on every repetition of the event. *)
Theorem recovery_recreates_deleted_record :
  (∀ api_plans db_plan rest evaluations,
     Compliance.deleted_flag db_plan = true →
     Compliance.evaluate_db_plans api_plans (db_plan :: rest) evaluations
       = Compliance.evaluate_db_plans api_plans rest evaluations) ∧
  Compliance.deleted_flag (Item "abc123" superseded_record) = true ∧
  let once := Recovery.lambda_handler Recovery.exact_float
                (delete_event "abc123") recovered_world in
  let twice := Recovery.lambda_handler Recovery.exact_float
                 (delete_event "abc123") once.2 in
  once.1 = Ok (Some (Recovery.Response 200
                       (Recovery.RecreatedSuccessfully "abc123" "new1"))) ∧
  up_id <$> plans once.2 = ["new0"; "new1"] ∧
  table once.2 !! "new1" ≫= (λ a, a !! "recreated_from") = Some (PStr "abc123") ∧
  table once.2 !! "abc123" ≫= (λ a, a !! "recreated_as") = Some (PStr "new1") ∧
  twice.1 = Ok (Some (Recovery.Response 200
                        (Recovery.RecreatedSuccessfully "abc123" "new2"))) ∧
  up_id <$> plans twice.2 = ["new0"; "new1"; "new2"].
Proof.
  split.
  - intros api_plans db_plan rest evaluations Hdel. simpl. by rewrite Hdel.
  - vm_compute. repeat split; reflexivity.
Qed.

(* ===================================================================== *)
(** ** Enforcement                                                        *)
(* ===================================================================== *)

Section EnforcementFacts.
Import Enforcement.







End EnforcementFacts.




(* ===================================================================== *)
(** ** The drift detector                                                 *)
(* ===================================================================== *)

Section Detector.
Import Compliance.

(** The detector reports nothing exactly when the four comparisons hold;
    otherwise it reports something or raises. *)
Lemma validate_plan_configuration_empty region db_plan api_plan :
  validate_plan_configuration region db_plan api_plan = Ok []
  ↔ four_equal region db_plan api_plan.
Proof.
  unfold validate_plan_configuration, four_equal.
  destruct (int_or_zero (get db_plan "rate_limit")) as [r|];
    [| split; [done | by intros (? & _)]].
  destruct (int_or_zero (get db_plan "burst_limit")) as [b|];
    [| split; [done | by intros (_ & ? & _)]].
  destruct (int_or_zero (get db_plan "quota_limit")) as [q|];
    [| split; [done | by intros (_ & _ & ? & _)]].
  destruct (db_stages_set db_plan) as [s|];
    [| split; [done | by intros (_ & _ & _ & ?)]].
  unfold mbind, outcome_bind.
  destruct (Z.eqb_spec r (api_int (rateLimit (throttle_of api_plan))));
  destruct (Z.eqb_spec b (api_int (burstLimit (throttle_of api_plan))));
  destruct (Z.eqb_spec q (api_int (limit (quota_of api_plan))));
  repeat case_bool_decide; simpl;
    (split; [intros [=] | intros (? & ? & ? & ?)]); simplify_eq;
    try done; try (repeat split; try done; f_equal; set_solver).
Qed.

Lemma validate_plan_configuration_cases region db_plan api_plan :
  (four_equal region db_plan api_plan ∧
   validate_plan_configuration region db_plan api_plan = Ok []) ∨
  (¬ four_equal region db_plan api_plan ∧
   ((∃ v vs, validate_plan_configuration region db_plan api_plan = Ok (v :: vs)) ∨
    (∃ e, validate_plan_configuration region db_plan api_plan = Raise e))).
Proof.
  destruct (validate_plan_configuration region db_plan api_plan)
    as [[|v vs]|e] eqn:E.
  - left. split; [by apply validate_plan_configuration_empty | done].
  - right. split; [| eauto].
    intros H%validate_plan_configuration_empty. congruence.
  - right. split; [| eauto].
    intros H%validate_plan_configuration_empty. congruence.
Qed.


Lemma first_same_limits_Some api_plan items db_plan :
  first_same_limits api_plan items = Ok (Some db_plan) →
  db_plan ∈ items ∧ same_limits db_plan api_plan = Ok true.
Proof.
  induction items as [|it rest IH]; simpl; [done |].
  destruct (same_limits it api_plan) as [[]|e] eqn:E; simpl; [| | done].
  - intros [= <-]. split; [apply list_elem_of_here | done].
  - intros H. destruct (IH H). split; [by apply list_elem_of_further | done].
Qed.


Lemma resolved_record_unique w api_plan db1 db2 :
  resolved_record w api_plan db1 → resolved_record w api_plan db2 → db1 = db2.
Proof.
  intros (n1 & Hn1 & H1) (n2 & Hn2 & H2).
  assert (n2 = n1) as -> by congruence.
  destruct db1 as [k1 a1], db2 as [k2 a2]; simpl in *.
  destruct H1 as [(H1 & <-) | (H1 & H1')], H2 as [(H2 & <-) | (H2 & H2')];
    congruence.
Qed.

Lemma resolved_not_unmatched w api_plan db_plan :
  resolved_record w api_plan db_plan → ¬ unmatched w api_plan.
Proof.
  intros (n1 & Hn1 & H1) (n2 & Hn2 & H2 & H3).
  assert (n2 = n1) as -> by congruence.
  destruct H1 as [(H1 & _) | (_ & H1)]; congruence.
Qed.

End Detector.

(* ===================================================================== *)
(** ** Evaluation of a usage plan                                         *)
(* ===================================================================== *)

Section UsagePlanEvaluation.
Import Compliance.

Lemma scanned_logged rs w : scanned (logged rs w) = scanned w.
Proof. done. Qed.

Lemma usage_plan_branch_spec ci w :
  wp (usage_plan_branch ci) w (plan_run (resourceId ci) w).
Proof.
  unfold usage_plan_branch. wp_steps.
  - apply plan_run_error; [done | done | done |].
    destruct H; [left; eauto | right; left; done].
  - apply plan_run_error; [done | done | done |].
    destruct H1 as [Hout | Hname]; [left; eauto |].
    right; right. eauto.
  - destruct (table w !! k) as [a|] eqn:Hrec; simpl.
    + destruct (validate_plan_configuration (region w) (Item k a) p)
        as [vs|e] eqn:Hval; wp_steps.
      * apply (plan_run_verdict _ _ p (Item k a)); try done.
        split; [done |]. exists k. split; [done | left; done].
      * apply plan_run_error; [done | done | done |].
        right; right. exists p. split; [done |]. right; right.
        exists (Item k a), e. split; [| done].
        exists k. split; [done | left; done].
    + wp_steps.
      { apply plan_run_error; [done | done | done |]. left; eauto. }
      rewrite !scanned_logged.
      destruct (first_same_limits p (scanned w)) as [[db|]|e] eqn:Hscan; simpl.
      * destruct (validate_plan_configuration (region w) db p)
          as [vs|e] eqn:Hval; wp_steps.
        -- apply (plan_run_verdict _ _ p db); try done.
           split; [done |]. exists k. split; [done | right; done].
        -- apply plan_run_error; [done | done | done |].
           right; right. exists p. split; [done |]. right; right.
           exists db, e. split; [| done].
           exists k. split; [done | right; done].
      * wp_steps.
        -- apply plan_run_error; [done | done | done |].
           destruct H4 as [Hout | Hgone]; [left; eauto | simpl in Hgone; congruence].
        -- apply (plan_run_removed _ _ p); try done. exists k. done.
      * wp_steps. apply plan_run_error; [done | done | done |].
        right; right. exists p. split; [done |]. right; left. eauto.
Qed.

Lemma evaluate_usage_plan_spec ci w :
  resourceType ci = "AWS::ApiGateway::UsagePlan" →
  wp (evaluate_resource_compliance ci) w (λ o w',
    ∃ r, plan_run (resourceId ci) w (Ok r) w' ∧ o = Ok (conclude ci r)).
Proof.
  intros Hty. unfold evaluate_resource_compliance. rewrite Hty. simpl.
  wp_steps. eapply wp_mono; [apply usage_plan_branch_spec |].
  intros o w' Hrun. inversion Hrun; subst; simpl; wp_steps; eauto.
Qed.



End UsagePlanEvaluation.

(* ===================================================================== *)
(** ** Unmanaged plans                                                    *)
(* ===================================================================== *)


Lemma apply_patch_id o p p' : apply_patch o p = Ok p' → up_id p' = up_id p.
Proof.
  unfold apply_patch. repeat case_match; intros [= <-]; done.
Qed.

Lemma apply_patches_id ops p p' : apply_patches ops p = Ok p' → up_id p' = up_id p.
Proof.
  unfold apply_patches. revert p p'.
  induction ops as [|o ops IH] using rev_ind; intros p p'; simpl.
  - by intros [= <-].
  - rewrite foldl_app. simpl.
    destruct (foldl (λ acc o0, acc ≫= apply_patch o0) (Ok p) ops) as [q|e] eqn:E;
      simpl; [| done].
    intros H%apply_patch_id. rewrite H. by apply IH.
Qed.

Section Unmanaged.
Import Enforcement.


End Unmanaged.

Section UnmanagedEvaluation.
Import Compliance.



End UnmanagedEvaluation.



(* ===================================================================== *)
(** ** Evaluation of a stage                                              *)
(* ===================================================================== *)

Section StageEvaluation.
Import Compliance.

Lemma reads_only_refl w : reads_only w w.
Proof. done. Qed.

Lemma reads_only_logged rs w w' : reads_only w w' → reads_only w (logged rs w').
Proof. done. Qed.

Lemma reads_only_scanned w w' : reads_only w w' → scanned w' = scanned w.
Proof. intros (Ht & _). unfold scanned. by rewrite Ht. Qed.

Lemma reads_only_outage w w' n :
  reads_only w w' → outage w' n = true → ∃ n, outage w n = true.
Proof. intros (_ & _ & _ & Ho & _) H. rewrite Ho in H. eauto. Qed.

Lemma verify_stage_exists_spec stage_arn w0 w :
  reads_only w0 w →
  wp (verify_stage_exists stage_arn) w (λ o w',
    reads_only w0 w' ∧
    ((o = Ok true ∧ stage_deployed w0 stage_arn) ∨
     (o = Ok false ∧ ((∃ n, outage w0 n = true) ∨ ¬ stage_deployed w0 stage_arn)))).
Proof.
  intros Hro. pose proof Hro as (_ & _ & Hd & _).
  unfold verify_stage_exists. wp_steps.
  destruct (index_back (split "/" stage_arn) 3) as [api_id|] eqn:H3;
    [destruct (index_back (split "/" stage_arn) 1) as [stage_name|] eqn:H1 |];
    wp_steps.
  - split; [done |]. right. split; [done |].
    match goal with H : _ ∨ _ |- _ => destruct H as [H | H] end;
      [left; by eapply reads_only_outage |].
    right. intros (a & s & Ha & Hs & Hin). rewrite Hd in *. congruence.
  - split; [done |]. left. split; [done |].
    exists api_id, stage_name. rewrite <- Hd. done.
  - split; [done |]. right. split; [done |]. right.
    intros (a & s & Ha & Hs & Hin). congruence.
  - split; [done |]. right. split; [done |]. right.
    intros (a & s & Ha & Hs & Hin). congruence.
Qed.

Lemma find_usage_plan_for_stage_spec stage_arn w0 w :
  reads_only w0 w →
  wp (find_usage_plan_for_stage stage_arn) w (λ o w',
    reads_only w0 w' ∧
    ((∃ db_plan, o = Ok (Some db_plan) ∧
                 first_plan_with_stage stage_arn (scanned w0) = Ok (Some db_plan)) ∨
     (o = Ok None ∧
      ((∃ n, outage w0 n = true) ∨
       ∀ db_plan, first_plan_with_stage stage_arn (scanned w0) ≠ Ok (Some db_plan))))).
Proof.
  intros Hro. unfold find_usage_plan_for_stage. wp_steps.
  - split; [done |]. right. split; [done |]. left. by eapply reads_only_outage.
  - rewrite (reads_only_scanned _ _ Hro).
    destruct (first_plan_with_stage stage_arn (scanned w0)) as [[db|]|e] eqn:E;
      simpl; wp_steps; (split; [done |]); [left; eauto | right | right];
      (split; [done | right; congruence]).
Qed.

Lemma stage_pair_unique w stage_arn db1 api1 db2 api2 :
  stage_pair w stage_arn db1 api1 → stage_pair w stage_arn db2 api2 →
  db1 = db2 ∧ api1 = api2.
Proof.
  intros (a1 & s1 & p1 & ? & ? & ? & ? & ? & ? & ?)
         (a2 & s2 & p2 & ? & ? & ? & ? & ? & ? & ?).
  simplify_eq. split; congruence.
Qed.

Lemma stage_branch_spec ci w :
  wp (stage_branch ci) w (stage_run (resourceId ci) w).
Proof.
  unfold stage_branch. wp_step.
  eapply wp_mono; [apply (verify_stage_exists_spec _ w), reads_only_refl |].
  intros o w1 (Hro1 & [(-> & Hdep) | (-> & Hcause)]); simpl.
  2: { wp_steps. by apply stage_run_absent. }
  pose proof Hdep as (api_id & stage_name & H3 & H1 & Hin). rewrite H3, H1.
  wp_steps.
  { apply stage_run_raise; [done | done |]. by eapply reads_only_outage. }
  assert (Hplans : plans w1 = plans w) by apply Hro1. rewrite Hplans.
  eapply wp_mono;
    [apply (find_usage_plan_for_stage_spec _ w), reads_only_logged, Hro1 |].
  intros o w2 (Hro2 & [(db & -> & Hfirst) | (-> & Hnone)]); simpl.
  2: { assert (Hno : (∃ n, outage w n = true) ∨
                     ∀ db_plan api_plan, ¬ stage_pair w (resourceId ci) db_plan api_plan).
       { destruct Hnone as [? | Hnone]; [by left | right].
         intros db' api' (? & ? & ? & ? & ? & ? & ? & ? & Hf & ?).
         by destruct (Hnone db'). }
       destruct (nonempty_id _); wp_steps; by apply stage_run_unmapped. }
  destruct (associated_plan api_id stage_name (plans w) None) as [pid|] eqn:Hassoc;
    simpl.
  2: { wp_steps. apply stage_run_unmapped; [done | done | done | right].
       intros db' api' (? & ? & ? & ? & ? & ? & ? & ? & ? & ?). congruence. }
  destruct (String.eqb_spec pid "") as [-> | Hpid]; simpl.
  { wp_steps. apply stage_run_unmapped; [done | done | done | right].
    intros db' api' (? & ? & ? & ? & ? & ? & ? & ? & ? & ?). congruence. }
  assert (Hplans2 : plans w2 = plans w) by apply Hro2.
  assert (Hregion2 : region w2 = region w) by apply Hro2.
  wp_steps.
  - apply stage_run_lookup_error; [by apply reads_only_logged | done |].
    match goal with H : _ ∨ _ |- _ => destruct H as [H | H] end;
      [left; by eapply reads_only_outage | right; left].
    rewrite Hplans2 in *.
    intros db' api' (? & ? & ? & ? & ? & ? & ? & ? & ? & ?). congruence.
  - rewrite Hplans2, Hregion2 in *.
    match goal with H : find_plan pid (plans w) = Some ?p |- _ => rename p into api_plan end.
    assert (Hpair : stage_pair w (resourceId ci) db api_plan)
      by (exists api_id, stage_name, pid; done).
    destruct (validate_plan_configuration (region w) db api_plan)
      as [vs|e] eqn:Hval; simpl; wp_steps.
    + by eapply stage_run_verdict.
    + apply stage_run_lookup_error; [by apply reads_only_logged | done |].
      right; right. eauto.
Qed.

End StageEvaluation.

(* ===================================================================== *)
(** ** Classification                                                     *)
(* ===================================================================== *)

Section Classification.
Import Compliance.

Lemma evaluate_stage_spec ci w :
  resourceType ci = "AWS::ApiGateway::Stage" →
  wp (evaluate_resource_compliance ci) w (λ o w',
    ∃ r, stage_run (resourceId ci) w r w' ∧
         o = Ok match r with
                | Ok r => conclude ci r
                | Raise e =>
                    create_evaluation_result (resourceType ci) (resourceId ci)
                      NON_COMPLIANT ("Error evaluating resource: " +:+ e) ci
                end).
Proof.
  intros Hty. unfold evaluate_resource_compliance. rewrite Hty. simpl.
  wp_steps. eapply wp_mono; [apply stage_branch_spec |].
  intros o w' Hrun. inversion Hrun; subst; simpl; wp_steps;
    eexists; (split; [exact Hrun | done]).
Qed.

Lemma conclude_violations ci vs :
  ComplianceType (conclude ci (inr vs))
    = match vs with [] => COMPLIANT | _ => NON_COMPLIANT end.
Proof. by destruct vs. Qed.

Lemma plan_pair_error usage_plan_id w db_plan api_plan :
  services_up w → plan_pair w usage_plan_id db_plan api_plan →
  plan_error usage_plan_id w →
  ∃ e, validate_plan_configuration (region w) db_plan api_plan = Raise e.
Proof.
  intros Hup [Hfind Hres] [(n & Hn) | [Hgone | (api' & Hf' & Hwhy)]].
  - by rewrite Hup in Hn.
  - congruence.
  - assert (api' = api_plan) as -> by congruence.
    destruct Hwhy as [Hnoname | [(n' & e & Hn' & Hnone & Hraise) | (db' & e & Hr & Hraise)]].
    + destruct Hres as (n & Hn & _). congruence.
    + destruct Hres as (n & Hn & Hcase).
      assert (n' = n) as -> by congruence.
      destruct Hcase as [(? & _) | (_ & ?)]; congruence.
    + rewrite (resolved_record_unique _ _ _ _ Hres Hr). eauto.
Qed.

Lemma plan_pair_unique w usage_plan_id db1 api1 db2 api2 :
  plan_pair w usage_plan_id db1 api1 → plan_pair w usage_plan_id db2 api2 →
  db1 = db2 ∧ api1 = api2.
Proof.
  intros [Hf1 Hr1] [Hf2 Hr2].
  assert (api2 = api1) as -> by congruence.
  split; [by eapply resolved_record_unique | done].
Qed.

Lemma raise_not_four_equal region db_plan api_plan e :
  validate_plan_configuration region db_plan api_plan = Raise e →
  ¬ four_equal region db_plan api_plan.
Proof. intros H Hfour%validate_plan_configuration_empty. congruence. Qed.

(** The usage-plan evaluation, by cases on the detector. *)
Lemma usage_plan_classification ci w :
  resourceType ci = "AWS::ApiGateway::UsagePlan" →
  let res := evaluate_resource_compliance ci w in
  ∃ ev, res.1 = Ok ev ∧
    (ComplianceType ev = COMPLIANT →
     ∃ db_plan api_plan, plan_pair w (resourceId ci) db_plan api_plan ∧
                         four_equal (region w) db_plan api_plan) ∧
    (find_plan (resourceId ci) (plans w) = None → ComplianceType ev = NON_COMPLIANT) ∧
    (∀ db_plan api_plan,
       services_up w → plan_pair w (resourceId ci) db_plan api_plan →
       (four_equal (region w) db_plan api_plan → ComplianceType ev = COMPLIANT) ∧
       (¬ four_equal (region w) db_plan api_plan → ComplianceType ev = NON_COMPLIANT)).
Proof.
  intros Hty res.
  destruct (evaluate_usage_plan_spec ci w Hty) as (r & Hrun & Hres).
  fold res in Hrun, Hres. exists (conclude ci r). split; [done |].
  inversion Hrun as [ev w' Hnc _ _ Herr | api ev w' Hf Hun Hnc _ _
                     | api db vs w' Hpair Hval _ _]; subst.
  - simpl. split; [congruence |]. split; [done |].
    intros db api Hup Hpair.
    destruct (plan_pair_error _ _ _ _ Hup Hpair Herr) as (e & He).
    split; [| done]. intros Hfour. by destruct (raise_not_four_equal _ _ _ _ He).
  - simpl. split; [congruence |]. split; [done |].
    intros db api' Hup [Hfind Hr].
    assert (api' = api) as -> by congruence.
    by destruct (resolved_not_unmatched _ _ _ Hr).
  - rewrite conclude_violations. split; [| split].
    + destruct vs; [| done]. intros _. exists db, api.
      split; [done | by apply validate_plan_configuration_empty].
    + destruct Hpair as [Hfind _]. congruence.
    + intros db' api' _ Hpair'.
      destruct (plan_pair_unique _ _ _ _ _ _ Hpair Hpair') as [<- <-].
      split.
      * intros Hfour%validate_plan_configuration_empty.
        rewrite Hfour in Hval. by injection Hval as <-.
      * intros Hno. destruct vs; [| done].
        by destruct Hno; apply validate_plan_configuration_empty.
Qed.

(** The stage evaluation, by cases on the detector. *)
Lemma stage_classification ci w :
  resourceType ci = "AWS::ApiGateway::Stage" →
  let res := evaluate_resource_compliance ci w in
  ∃ ev, res.1 = Ok ev ∧
    (ComplianceType ev = COMPLIANT →
     ∃ db_plan api_plan, stage_pair w (resourceId ci) db_plan api_plan ∧
                         four_equal (region w) db_plan api_plan) ∧
    (¬ stage_deployed w (resourceId ci) → ComplianceType ev = NOT_APPLICABLE) ∧
    (∀ db_plan api_plan,
       services_up w → stage_pair w (resourceId ci) db_plan api_plan →
       (four_equal (region w) db_plan api_plan → ComplianceType ev = COMPLIANT) ∧
       (¬ four_equal (region w) db_plan api_plan → ComplianceType ev = NON_COMPLIANT)).
Proof.
  intros Hty res.
  destruct (evaluate_stage_spec ci w Hty) as (r & Hrun & Hres).
  fold res in Hrun, Hres. eexists. split; [exact Hres |].
  assert (Hdep : ∀ db api, stage_pair w (resourceId ci) db api →
                           stage_deployed w (resourceId ci)).
  { intros db api (a & s & p & ? & ? & ? & _). by exists a, s. }
  inversion Hrun as [e w' _ Hd (n & Hn) | ev w' _ Hnc Hwhy | ev w' _ Hd Hnc Hwhy
                     | pid e w' _ Hd Hwhy | db api vs w' _ Hpair Hval]; subst.
  - simpl. split; [done |]. split; [done |].
    intros db api Hup _. by rewrite Hup in Hn.
  - simpl. rewrite Hnc. split; [done |]. split; [done |].
    intros db api Hup Hpair. exfalso.
    destruct Hwhy as [(n & Hn) | Hno]; [by rewrite Hup in Hn | eauto].
  - simpl. rewrite Hnc. split; [done |]. split; [done |].
    intros db api Hup Hpair. split; [| done]. intros _. exfalso.
    destruct Hwhy as [(n & Hn) | Hno]; [by rewrite Hup in Hn |].
    by destruct (Hno db api).
  - simpl. split; [done |]. split; [done |].
    intros db api Hup Hpair. split; [| done]. intros Hfour. exfalso.
    destruct Hwhy as [(n & Hn) | [Hno | (db' & api' & e' & Hpair' & He)]].
    + by rewrite Hup in Hn.
    + by destruct (Hno db api).
    + destruct (stage_pair_unique _ _ _ _ _ _ Hpair Hpair') as [<- <-].
      by destruct (raise_not_four_equal _ _ _ _ He).
  - rewrite conclude_violations. split; [| split].
    + destruct vs; [| done]. intros _. exists db, api.
      split; [done | by apply validate_plan_configuration_empty].
    + intros Hno. by destruct Hno; eapply Hdep.
    + intros db' api' _ Hpair'.
      destruct (stage_pair_unique _ _ _ _ _ _ Hpair Hpair') as [<- <-].
      split.
      * intros Hfour%validate_plan_configuration_empty.
        rewrite Hfour in Hval. by injection Hval as <-.
      * intros Hno. destruct vs; [| done].
        by destruct Hno; apply validate_plan_configuration_empty.
Qed.

Lemma unsupported_type_not_applicable ci w :
  configurationItemStatus ci ≠ "ResourceDeleted" →
  configurationItemStatus ci ≠ "ResourceNotRecorded" →
  resourceType ci ≠ "AWS::ApiGateway::Stage" →
  resourceType ci ≠ "AWS::ApiGateway::UsagePlan" →
  log (lambda_handler (Some ci) w).2
    = log w ++ [PutEvaluations
                  [Evaluation (resourceType ci) (resourceId ci) NOT_APPLICABLE
                     ("Resource type " +:+ resourceType ci +:+ " not supported")
                     (configurationItemCaptureTime ci)]].
Proof.
  intros H1%String.eqb_neq H2%String.eqb_neq H3%String.eqb_neq H4%String.eqb_neq.
  unfold lambda_handler. rewrite H1, H2, H3, H4. simpl.
  unfold mbind, io_bind, mret, io_ret, put_evaluations, call. simpl.
  by destruct (outage w (length (log w))).
Qed.

(** C4, as the code has it.  The detector reports nothing exactly when
    the four comparisons hold.  An evaluation is COMPLIANT only if the
    detector was handed a pair whose four comparisons hold; the services
    answering, the pair the evaluation resolves is COMPLIANT when they
    hold and NON_COMPLIANT when one of them fails.  A resource of another
    type is NOT_APPLICABLE, and so is a stage that is not deployed; a
    usage plan whose live resource does not exist is NON_COMPLIANT. *)
Theorem classification_follows_detector :
  (∀ region db_plan api_plan,
     validate_plan_configuration region db_plan api_plan = Ok []
     ↔ four_equal region db_plan api_plan) ∧
  (∀ ci w,
     resourceType ci = "AWS::ApiGateway::UsagePlan" →
     let res := evaluate_resource_compliance ci w in
     ∃ ev, res.1 = Ok ev ∧
       (ComplianceType ev = COMPLIANT →
        ∃ db_plan api_plan, plan_pair w (resourceId ci) db_plan api_plan ∧
                            four_equal (region w) db_plan api_plan) ∧
       (find_plan (resourceId ci) (plans w) = None →
        ComplianceType ev = NON_COMPLIANT) ∧
       (∀ db_plan api_plan,
          services_up w → plan_pair w (resourceId ci) db_plan api_plan →
          (four_equal (region w) db_plan api_plan → ComplianceType ev = COMPLIANT) ∧
          (¬ four_equal (region w) db_plan api_plan →
           ComplianceType ev = NON_COMPLIANT))) ∧
  (∀ ci w,
     resourceType ci = "AWS::ApiGateway::Stage" →
     let res := evaluate_resource_compliance ci w in
     ∃ ev, res.1 = Ok ev ∧
       (ComplianceType ev = COMPLIANT →
        ∃ db_plan api_plan, stage_pair w (resourceId ci) db_plan api_plan ∧
                            four_equal (region w) db_plan api_plan) ∧
       (¬ stage_deployed w (resourceId ci) → ComplianceType ev = NOT_APPLICABLE) ∧
       (∀ db_plan api_plan,
          services_up w → stage_pair w (resourceId ci) db_plan api_plan →
          (four_equal (region w) db_plan api_plan → ComplianceType ev = COMPLIANT) ∧
          (¬ four_equal (region w) db_plan api_plan →
           ComplianceType ev = NON_COMPLIANT))) ∧
  (∀ ci w,
     configurationItemStatus ci ≠ "ResourceDeleted" →
     configurationItemStatus ci ≠ "ResourceNotRecorded" →
     resourceType ci ≠ "AWS::ApiGateway::Stage" →
     resourceType ci ≠ "AWS::ApiGateway::UsagePlan" →
     log (lambda_handler (Some ci) w).2
       = log w ++ [PutEvaluations
                     [Evaluation (resourceType ci) (resourceId ci) NOT_APPLICABLE
                        ("Resource type " +:+ resourceType ci +:+ " not supported")
                        (configurationItemCaptureTime ci)]]).
Proof.
  split; [apply validate_plan_configuration_empty |].
  split; [apply usage_plan_classification |].
  split; [apply stage_classification | apply unsupported_type_not_applicable].
Qed.

End Classification.

(** C4, as the claim has it, fails: the live usage plan does not exist
    and the evaluation is NON_COMPLIANT, not NOT_APPLICABLE. *)
Lemma missing_plan_is_non_compliant :
  let w := sample_world {[ "abc123" := sample_record ]} [] all_up in
  let res := Compliance.evaluate_resource_compliance
               (sample_item "AWS::ApiGateway::UsagePlan" "abc123") w in
  find_plan "abc123" (plans w) = None ∧
  res.1 = Ok (Evaluation "AWS::ApiGateway::UsagePlan" "abc123" NON_COMPLIANT
                ("Error getting API Gateway usage plan: "
                   +:+ "NotFoundException: Invalid Usage Plan ID specified")
                "2024-06-01T00:00:00.000Z").
Proof. vm_compute. split; reflexivity. Qed.

Lemma classification_follows_detector_witness :
  let w := sample_world {[ "Basic Tier" := <["stages" := PStrList []]> sample_record ]}
             [sample_plan 50 10000] all_up in
  let res := Compliance.evaluate_resource_compliance
               (sample_item "AWS::ApiGateway::UsagePlan" "abc123") w in
  ∃ ev, res.1 = Ok ev ∧ ComplianceType ev = COMPLIANT.
Proof.
  intros w res.
  destruct (proj1 (proj2 classification_follows_detector)
              (sample_item "AWS::ApiGateway::UsagePlan" "abc123") w eq_refl)
    as (ev & Hev & _ & _ & Hpair).
  exists ev. split; [exact Hev |].
  apply (Hpair (Item "Basic Tier" (<["stages" := PStrList []]> sample_record))
               (sample_plan 50 10000)).
  - intros n. reflexivity.
  - split; [reflexivity |]. exists "Basic Tier". split; [reflexivity |].
    left. split; reflexivity.
  - repeat split; vm_compute; reflexivity.
Defined.

(* ===================================================================== *)
(** ** The identity resolver                                              *)
(* ===================================================================== *)

Section Resolver.
Import Compliance.











End Resolver.


(* ===================================================================== *)
(** ** Stage references                                                   *)
(* ===================================================================== *)

Lemma chars_append s1 s2 : chars (s1 +:+ s2) = chars s1 ++ chars s2.
Proof. induction s1 as [|c s1 IH]; simpl; [done | by rewrite IH]. Qed.

Lemma text_chars s : text (chars s) = s.
Proof. apply string_of_list_ascii_of_string. Qed.

Lemma split_chars_last sep cur l :
  sep ∉ l → split_chars sep cur l = [text (rev cur ++ l)].
Proof.
  revert cur. induction l as [|c l IH]; intros cur Hno; simpl.
  - by rewrite app_nil_r.
  - apply not_elem_of_cons in Hno as [Hc Hl].
    destruct (Ascii.eqb_spec c sep) as [-> | _]; [done |].
    rewrite IH by done. simpl. by rewrite <- app_assoc.
Qed.

Lemma split_chars_part sep cur a b :
  sep ∉ a →
  split_chars sep cur (a ++ sep :: b) = text (rev cur ++ a) :: split_chars sep [] b.
Proof.
  revert cur. induction a as [|c a IH]; intros cur Hno; simpl.
  - rewrite Ascii.eqb_refl. by rewrite app_nil_r.
  - apply not_elem_of_cons in Hno as [Hc Ha].
    destruct (Ascii.eqb_spec c sep) as [-> | _]; [done |].
    rewrite IH by done. simpl. by rewrite <- app_assoc.
Qed.

(** The parts of the reference the detector builds for a stage. *)
Lemma split_stage_arn region api_id stage_name :
  no_slash (default "us-east-1" region) → no_slash api_id → no_slash stage_name →
  split "/" (Compliance.stage_arn_of region (ApiStage (Some api_id) (Some stage_name)))
    = ["arn:aws:apigateway:" +:+ default "us-east-1" region +:+ "::";
       "restapis"; api_id; "stages"; stage_name].
Proof.
  unfold no_slash. intros Hr Ha Hs.
  unfold split, Compliance.stage_arn_of. simpl default.
  set (r := default "us-east-1" region) in *.
  assert (Hshape :
    chars ("arn:aws:apigateway:" +:+ r +:+ "::/restapis/" +:+ api_id
             +:+ "/stages/" +:+ stage_name)
    = chars ("arn:aws:apigateway:" +:+ r +:+ "::") ++
      "/"%char :: chars "restapis" ++
      "/"%char :: chars api_id ++
      "/"%char :: chars "stages" ++
      "/"%char :: chars stage_name).
  { rewrite !chars_append. simpl. rewrite <- !app_assoc. done. }
  rewrite Hshape.
  rewrite split_chars_part.
  2: { rewrite !chars_append. rewrite !elem_of_app. intros [H | [H | H]];
       [vm_compute in H; set_solver | done | vm_compute in H; set_solver]. }
  rewrite split_chars_part by (vm_compute; set_solver).
  rewrite split_chars_part by done.
  rewrite split_chars_part by (vm_compute; set_solver).
  rewrite split_chars_last by done.
  simpl. by rewrite !text_chars.
Qed.

(** X1.  The reference the detector builds from a structured stage is
    read back by both parsers of the handlers: the recovery handler (from
    the front) and the stage check (from the back) recover the same API
    identity and stage name, when region, identity and name contain no
    ["/"]. *)
Theorem stage_arn_round_trip region api_id stage_name :
  no_slash (default "us-east-1" region) → no_slash api_id → no_slash stage_name →
  let stage_arn :=
    Compliance.stage_arn_of region (ApiStage (Some api_id) (Some stage_name)) in
  Recovery.parse_stage_arn stage_arn = Some (api_id, stage_name) ∧
  index_back (split "/" stage_arn) 3 = Some api_id ∧
  index_back (split "/" stage_arn) 1 = Some stage_name.
Proof.
  intros Hr Ha Hs stage_arn. unfold Recovery.parse_stage_arn. subst stage_arn.
  rewrite (split_stage_arn region api_id stage_name Hr Ha Hs). done.
Qed.

Lemma stage_arn_round_trip_witness :
  Recovery.parse_stage_arn
    (Compliance.stage_arn_of (Some "eu-west-1") (ApiStage (Some "api1") (Some "dev")))
  = Some ("api1", "dev").
Proof.
  apply (stage_arn_round_trip (Some "eu-west-1") "api1" "dev");
    unfold no_slash; vm_compute; set_solver.
Defined.

(** X2.  The recovery handler reads a stage out of a reference exactly
    when the reference has at least five ["/"]-separated parts, and then
    takes the third and the fifth: a reference of four parts passes the
    length test and is dropped all the same. *)
Theorem parse_stage_arn_five_parts stage_arn :
  (∀ api_id stage_name,
     Recovery.parse_stage_arn stage_arn = Some (api_id, stage_name) ↔
     (5 ≤ length (split "/" stage_arn))%nat ∧
     split "/" stage_arn !! 2%nat = Some api_id ∧
     split "/" stage_arn !! 4%nat = Some stage_name) ∧
  (Recovery.parse_stage_arn stage_arn = None ↔
   (length (split "/" stage_arn) < 5)%nat).
Proof.
  unfold Recovery.parse_stage_arn, index.
  set (parts := split "/" stage_arn).
  destruct (parts !! 4%nat) as [s|] eqn:H4.
  - assert (Hlen : (4 < length parts)%nat) by (by eapply lookup_lt_Some).
    destruct (parts !! 2%nat) as [a|] eqn:H2.
    2: { apply lookup_ge_None in H2. lia. }
    destruct (Nat.leb_spec 4 (length parts)); [| lia].
    split; [| split; [done | lia]].
    intros api_id stage_name. split; [intros [= <- <-]; repeat split; [lia | done..] |].
    intros (_ & [= ->] & [= ->]). done.
  - assert (Hlen : (length parts ≤ 4)%nat) by (by apply lookup_ge_None).
    split.
    + intros api_id stage_name. split; [by repeat case_match |].
      intros (? & _). lia.
    + split; [lia |]. intros _. by repeat case_match.
Qed.

(* ===================================================================== *)
(** ** The name-to-identity dict of the periodic evaluation               *)
(* ===================================================================== *)

Section NameToId.
Import Compliance.

Lemma dict_set_keys k v d :
  (dict_set k v d).*1 = if bool_decide (k ∈ d.*1) then d.*1 else d.*1 ++ [k].
Proof.
  induction d as [|[k' v'] d IH]; [done |].
  cbn [dict_set]. destruct (decide (k' = k)) as [-> | Hk].
  - rewrite (bool_decide_eq_true_2 (k = k)) by done. rewrite !fmap_cons.
    cbn [fst]. rewrite bool_decide_eq_true_2 by apply list_elem_of_here. done.
  - rewrite (bool_decide_eq_false_2 (k' = k)) by done. rewrite !fmap_cons, IH.
    cbn [fst]. destruct (decide (k ∈ d.*1)) as [Hin | Hnin].
    + rewrite !bool_decide_eq_true_2; [done | by apply list_elem_of_further | done].
    + rewrite !bool_decide_eq_false_2; [done | | done].
      intros [? | ?]%elem_of_cons; congruence.
Qed.

Lemma dict_set_NoDup k v d : NoDup d.*1 → NoDup (dict_set k v d).*1.
Proof.
  intros Hnd. rewrite dict_set_keys. case_bool_decide; [done |].
  apply NoDup_app. split; [done |]. split; [| apply NoDup_singleton].
  intros x Hx Hx'%list_elem_of_singleton. congruence.
Qed.

Lemma dict_set_lookup k v d k' v' :
  NoDup d.*1 →
  (k', v') ∈ dict_set k v d ↔ (k' = k ∧ v' = v) ∨ (k' ≠ k ∧ (k', v') ∈ d).
Proof.
  induction d as [|[k0 v0] d IH]; simpl; intros Hnd.
  - rewrite list_elem_of_singleton. split.
    + intros [= -> ->]. by left.
    + intros [[-> ->] | [_ H]]; [done | by apply elem_of_nil in H].
  - apply NoDup_cons in Hnd as [Hk0 Hnd].
    case_bool_decide as Hk.
    + subst k0. rewrite !elem_of_cons. split.
      * intros [[= -> ->] | Hin]; [by left |]. right. split; [| by right].
        intros ->. apply Hk0. apply list_elem_of_fmap. by exists (k, v').
      * intros [[-> ->] | [Hne [[= -> ->] | Hin]]]; [by left | done | by right].
    + rewrite !elem_of_cons, IH by done. split.
      * intros [[= -> ->] | [? | [? ?]]]; [right; split; [congruence | by left] | by left |].
        right. split; [done | by right].
      * intros [? | [? [? | ?]]]; [right; by left | by left | right; right; done].
Qed.

Lemma name_to_id_snoc items p :
  name_to_id (items ++ [p]) = dict_set (up_name p) (up_id p) (name_to_id items).
Proof. unfold name_to_id. by rewrite foldl_app. Qed.

Lemma name_to_id_NoDup items : NoDup (name_to_id items).*1.
Proof.
  induction items as [|p items IH] using rev_ind; [constructor |].
  rewrite name_to_id_snoc. by apply dict_set_NoDup.
Qed.

(** X3.  In the dict built from the listing no name occurs twice, and a
    name is bound to the identity of the last listed plan that has it:
    earlier plans of the same name are not in the dict. *)
Theorem name_to_id_last_wins items :
  NoDup (name_to_id items).*1 ∧
  ∀ n i,
    (n, i) ∈ name_to_id items ↔
    ∃ before p after,
      items = before ++ p :: after ∧ up_name p = n ∧ up_id p = i ∧
      ∀ q, q ∈ after → up_name q ≠ n.
Proof.
  split; [apply name_to_id_NoDup |].
  induction items as [|p items IH] using rev_ind; intros n i.
  - split; [intros H; by apply elem_of_nil in H |].
    intros (before & q & after & Heq & _). by destruct before.
  - rewrite name_to_id_snoc, dict_set_lookup by apply name_to_id_NoDup.
    rewrite IH. split.
    + intros [[-> ->] | (Hne & before & q & after & -> & Hn & Hi & Hafter)].
      * exists items, p, []. split; [done |]. split; [done |]. split; [done |].
        intros q Hq. by apply elem_of_nil in Hq.
      * exists before, q, (after ++ [p]).
        split; [by rewrite <- app_assoc |]. split; [done |]. split; [done |].
        intros q' [Hq' | ->%list_elem_of_singleton]%elem_of_app; auto.
    + intros (before & q & after & Heq & Hn & Hi & Hafter).
      destruct after as [|a after _] using rev_ind.
      * apply app_inj_tail in Heq as [-> ->]. left. done.
      * rewrite app_comm_cons, app_assoc in Heq.
        apply app_inj_tail in Heq as [-> ->]. right. split.
        -- intros Heq. apply (Hafter a); [| done].
           apply elem_of_app. right. by apply list_elem_of_singleton.
        -- exists before, q, after. split; [done |]. split; [done |]. split; [done |].
           intros q' Hq'. apply Hafter. apply elem_of_app. by left.
Qed.

End NameToId.
